(** * Odoo_backup: a shallow embedding of [main.py]

    The program copies two collections (planets, then characters) from a
    paginated JSON API into an Odoo database.  This development embeds the
    pure data-processing methods of [main.py] and proves the properties the
    specification states about them.

    Conventions of the embedding.
    - A Python [dict] is an association list in insertion order with
      pairwise distinct keys; [Dict.set] is item assignment
      ([d.update({k: v})] with a single pair): it replaces the value in
      place when the key is present and appends the pair otherwise.
    - Python values that flow through the program untyped (JSON fields,
      entity fields) are terms of [pyval].
    - A method that may raise returns an [outcome]; a method that logs
      returns the emitted lines next to its result.
    - The outside world (HTTP replies, the image decoder, the Odoo RPC
      endpoint) enters as Section variables. *)

From Stdlib Require Import ZArith List String Ascii Bool Lia.
From Stdlib Require Import Numbers.DecimalString.
From Stdlib Require Numbers.DecimalPos Numbers.DecimalZ.
From Stdlib Require Import Strings.Byte.
Import ListNotations.

Local Open Scope string_scope.
Local Open Scope list_scope.
Local Open Scope Z_scope.

Set Implicit Arguments.
Local Set Warnings "-register-all".

(** ** Python values and exceptions *)

(** The values the program handles without looking at their type.  JSON
    booleans and floats are left out: no field read by the program holds
    one in the source API. *)
Inductive pyval : Type :=
| PNone
| PInt (z : Z)
| PStr (s : string)
| PList (l : list pyval)
| PDict (d : list (string * pyval)).

Inductive exn : Type :=
| TypeError
| ValueError
| AttributeError
| KeyError
| IndexError
| Fault
| SystemExit (code : Z).

Inductive outcome (A : Type) : Type :=
| Ok (a : A)
| Raise (e : exn).

Arguments Ok {A} a.
Arguments Raise {A} e.

Definition bind {A B : Type} (m : outcome A) (f : A -> outcome B) : outcome B :=
  match m with
  | Ok a => f a
  | Raise e => Raise e
  end.

Notation "x <- m ;; k" := (bind m (fun x => k))
  (at level 61, m at next level, right associativity).

(** A [for] loop whose body may raise: the state is threaded through the
    items in order and the first exception ends the loop. *)
Fixpoint for_each {S A : Type} (body : S -> A -> outcome S) (l : list A) (s : S)
  : outcome S :=
  match l with
  | [] => Ok s
  | x :: r => s' <- body s x ;; for_each body r s'
  end.

(** [v == s] for a string literal [s]: only a [str] equals a [str]. *)
Definition py_eq_str (v : pyval) (s : string) : bool :=
  match v with
  | PStr t => String.eqb t s
  | _ => false
  end.

(** Whether a value can be used as a dictionary key ([list] and [dict]
    are unhashable). *)
Definition hashable (v : pyval) : bool :=
  match v with
  | PList _ | PDict _ => false
  | _ => true
  end.

(** ** Dictionaries *)

Class EqKey (K : Type) : Type := {
  keqb : K -> K -> bool;
  keqb_eq : forall a b, keqb a b = true <-> a = b
}.

#[export] Instance EqKey_Z : EqKey Z :=
  {| keqb := Z.eqb; keqb_eq := Z.eqb_eq |}.

#[export] Instance EqKey_string : EqKey string :=
  {| keqb := String.eqb; keqb_eq := String.eqb_eq |}.

Module Dict.
Section Ops.
Context {K V : Type} `{EqKey K}.

Definition t : Type := list (K * V).

Definition keys (d : list (K * V)) : list K := map fst d.
Definition values (d : list (K * V)) : list V := map snd d.

(** [d.get(k)], [None] when the key is missing. *)
Fixpoint get (d : list (K * V)) (k : K) : option V :=
  match d with
  | [] => None
  | (k', v) :: r => if keqb k' k then Some v else get r k
  end.

(** [d[k] = v]. *)
Fixpoint set (d : list (K * V)) (k : K) (v : V) : list (K * V) :=
  match d with
  | [] => [(k, v)]
  | (k', v') :: r =>
      if keqb k' k then (k', v) :: r else (k', v') :: set r k v
  end.

(** [d.update(d2)]. *)
Definition update (d d2 : list (K * V)) : list (K * V) :=
  fold_left (fun acc kv => set acc (fst kv) (snd kv)) d2 d.

(** [del d[k]]; [None] stands for the [KeyError] of a missing key. *)
Fixpoint del (d : list (K * V)) (k : K) : option (list (K * V)) :=
  match d with
  | [] => None
  | (k', v) :: r =>
      if keqb k' k then Some r
      else match del r k with
           | Some r' => Some ((k', v) :: r')
           | None => None
           end
  end.

(** The representation invariant of a dictionary. *)
Definition wf (d : list (K * V)) : Prop := NoDup (keys d).
End Ops.
End Dict.

(** ** Strings: slicing, [rfind], [int()] and [str()] *)

(** Normalisation of a slice bound against a length, as Python does it:
    a missing bound takes the default, a negative one counts from the
    end, and the outcome is clamped into [0..len]. *)
Definition slice_bound (len : Z) (default : Z) (b : option Z) : Z :=
  match b with
  | None => default
  | Some i =>
      let j := if i <? 0 then i + len else i in
      Z.max 0 (Z.min len j)
  end.

(** [l[start:stop]] *)
Definition py_slice {A : Type} (l : list A) (start stop : option Z) : list A :=
  let len := Z.of_nat (List.length l) in
  let a := slice_bound len 0 start in
  let b := slice_bound len len stop in
  firstn (Z.to_nat (b - a)) (skipn (Z.to_nat a) l).

Definition str_slice (s : string) (start stop : option Z) : string :=
  string_of_list_ascii (py_slice (list_ascii_of_string s) start stop).

(** Scan carrying the current index and the last index where [c] was seen. *)
Fixpoint rfind_from (c : ascii) (l : list ascii) (i last : Z) : Z :=
  match l with
  | [] => last
  | x :: r => rfind_from c r (i + 1) (if Ascii.eqb x c then i else last)
  end.

(** [s.rfind(c)] for a one-character needle: the highest index, or -1. *)
Definition str_rfind (s : string) (c : ascii) : Z :=
  rfind_from c (list_ascii_of_string s) 0 (-1).

(** [str.isspace] on the code points below 256. *)
Definition is_space (c : ascii) : bool :=
  let n := N_of_ascii c in
  ((9 <=? n) && (n <=? 13) || (28 <=? n) && (n <=? 32)
   || (n =? 133) || (n =? 160))%N.

Definition is_digit (c : ascii) : bool :=
  let n := N_of_ascii c in ((48 <=? n) && (n <=? 57))%N.

Fixpoint lstrip (l : list ascii) : list ascii :=
  match l with
  | c :: r => if is_space c then lstrip r else l
  | [] => []
  end.

Definition strip (l : list ascii) : list ascii :=
  rev (lstrip (rev (lstrip l))).

(** The digits of a decimal literal: one or more digits, single
    underscores allowed between two digits.  [prev] tells whether the
    previous character was a digit. *)
Fixpoint digits_value (l : list ascii) (acc : Z) (prev : bool) : option Z :=
  match l with
  | [] => if prev then Some acc else None
  | c :: r =>
      if is_digit c
      then digits_value r (10 * acc + Z.of_N (N_of_ascii c - 48)) true
      else if Ascii.eqb c "_"
           then (if prev then digits_value r acc false else None)
           else None
  end.

(** [int(s)] in base 10: surrounding white space is dropped, a sign may
    come first; anything else raises [ValueError]. *)
Definition py_int (s : string) : outcome Z :=
  let t := strip (list_ascii_of_string s) in
  let '(neg, body) :=
    match t with
    | c :: r =>
        if Ascii.eqb c "+" then (false, r)
        else if Ascii.eqb c "-" then (true, r)
        else (false, t)
    | [] => (false, t)
    end in
  match digits_value body 0 false with
  | Some n => Ok (if neg then - n else n)
  | None => Raise ValueError
  end.

(** [str(n)] for an integer. *)
Definition py_str_int (n : Z) : string :=
  NilZero.string_of_int (Z.to_int n).

(** [range(a, b)] *)
Definition py_range (a b : Z) : list Z :=
  map (fun i => a + Z.of_nat i) (seq 0 (Z.to_nat (b - a))).

(** ** [Generator] *)

Module Generator.
Section Env.
(** [requests.get(base_url).json().get("count")]: the item count the
    metadata request reports for an endpoint. *)
Variable requests_get_count : string -> Z.

Definition generate_entity_urls (base_url : string) : list string :=
  let amount := requests_get_count base_url in
  let pages :=
    if amount mod 10 =? 0 then amount / 10 else amount / 10 + 1 in
  map (fun page => (base_url ++ "?page=" ++ py_str_int page)%string)
      (py_range 1 (pages + 1)).
End Env.

Definition generate_photo_urls (base_url : string) (len : Z) : list string :=
  map (fun entity_id => (base_url ++ py_str_int entity_id ++ ".jpg")%string)
      (py_range 1 (len + 1)).
End Generator.

(** ** JSON access *)

(** [v.get(key, default)] on a value received as JSON: only a [dict] has
    the method. *)
Definition py_get (v : pyval) (key : string) (default : pyval) : outcome pyval :=
  match v with
  | PDict d =>
      Ok (match Dict.get d key with Some x => x | None => default end)
  | _ => Raise AttributeError
  end.

(** The items a [for] loop draws from a value: the elements of a list,
    the characters of a string, the keys of a dictionary. *)
Definition py_iter (v : pyval) : outcome (list pyval) :=
  match v with
  | PList l => Ok l
  | PStr s => Ok (map (fun c => PStr (String c "")) (list_ascii_of_string s))
  | PDict d => Ok (map (fun kv => PStr (fst kv)) d)
  | PNone | PInt _ => Raise TypeError
  end.

(** [int(u[(u[:-1].rfind("/") + 1) : -1])], the expression that lines
    158, 199 and 203 apply to a resource URL [u].  A list can be sliced
    but has no [rfind]; slicing a [dict] raises [TypeError] (before
    Python 3.12; a [KeyError] since). *)
Definition url_id (u : pyval) : outcome Z :=
  match u with
  | PStr s =>
      py_int (str_slice s
                (Some (str_rfind (str_slice s None (Some (-1))) "/" + 1))
                (Some (-1)))
  | PList _ => Raise AttributeError
  | PNone | PInt _ | PDict _ => Raise TypeError
  end.

(** The field mapping of one entity, and a collection keyed by source id. *)
Definition entity : Type := list (string * pyval).
Definition entities : Type := list (Z * entity).

(** ** [Planets] *)

Module Planets.
(** [value if (value != "unknown" and value != "0") else ""] *)
Definition blank (value : pyval) : pyval :=
  if negb (py_eq_str value "unknown") && negb (py_eq_str value "0")
  then value else PStr "".

(** The body of the inner loop (lines 154-177). *)
Definition planet_step (planet_dict : entities) (planet : pyval)
  : outcome entities :=
  name <- py_get planet "name" (PStr "") ;;
  if py_eq_str name "unknown" then Ok planet_dict
  else
    planet_url <- py_get planet "url" PNone ;;
    planet_id <- url_id planet_url ;;
    rotation_period <- py_get planet "rotation_period" PNone ;;
    orbital_period <- py_get planet "orbital_period" PNone ;;
    diameter <- py_get planet "diameter" PNone ;;
    population <- py_get planet "population" PNone ;;
    Ok (Dict.set planet_dict planet_id
          [("name", name);
           ("diameter", blank diameter);
           ("rotation_period", blank rotation_period);
           ("orbital_period", blank orbital_period);
           ("population", blank population)]).

Definition page_step (planet_dict : entities) (page : pyval)
  : outcome entities :=
  planets_list <- py_get page "results" (PStr "") ;;
  items <- py_iter planets_list ;;
  for_each planet_step items planet_dict.

Definition generate_planet_info (json_list : list pyval) : outcome entities :=
  for_each page_step json_list [].
End Planets.

(** ** [Characters] *)

Module Characters.
(** The loop state of [get_characters_info]: the dictionary under
    construction and the variable [planet_id], which outlives one
    iteration. *)
Definition state : Type := (entities * pyval)%type.

(** The body of the inner loop (lines 194-206). *)
Definition character_step (st : state) (character : pyval) : outcome state :=
  let '(characters_dict, planet_id) := st in
  name <- py_get character "name" (PStr "") ;;
  if py_eq_str name "unknown" then Ok st
  else
    character_url <- py_get character "url" PNone ;;
    character_id <- url_id character_url ;;
    planet_url <- py_get character "homeworld" (PStr "") ;;
    planet_id <- (if negb (py_eq_str planet_url "")
                  then p <- url_id planet_url ;; Ok (PInt p)
                  else Ok planet_id) ;;
    Ok (Dict.set characters_dict character_id
          [("name", name); ("planet", planet_id)],
        planet_id).

Definition page_step (st : state) (page : pyval) : outcome state :=
  characters_list <- py_get page "results" (PStr "") ;;
  items <- py_iter characters_list ;;
  for_each character_step items st.

Definition get_characters_info (json_list : list pyval) : outcome entities :=
  st <- for_each page_step json_list ([], PStr "") ;;
  Ok (fst st).

(** [image_dict.get(characters_id)] *)
Definition image_of (image_dict : list (Z * pyval)) (characters_id : Z) : pyval :=
  match Dict.get image_dict characters_id with
  | Some v => v
  | None => PNone
  end.

(** The entity objects are updated in place: after the call the
    argument and the returned dictionary hold the same entities. *)
Definition upgrage_characters_photo
    (characters_dict : entities) (image_dict : list (Z * pyval)) : entities :=
  fold_left
    (fun changed_characters_dict item =>
       let '(characters_id, values) := item in
       let values :=
         if negb (py_eq_str (image_of image_dict characters_id) "")
         then Dict.set values "image_1920" (image_of image_dict characters_id)
         else values in
       Dict.set changed_characters_dict characters_id values)
    characters_dict [].

(** [ids_planets_dict.get(planet_id, "")]: the keys of the map are
    integers, so only an integer can hit; a [list] or a [dict] cannot
    be hashed. *)
Definition planet_lookup (ids_planets_dict : list (Z * Z)) (planet_id : pyval)
  : outcome pyval :=
  match planet_id with
  | PInt z =>
      Ok (match Dict.get ids_planets_dict z with
          | Some t => PInt t
          | None => PStr ""
          end)
  | PNone | PStr _ => Ok (PStr "")
  | PList _ | PDict _ => Raise TypeError
  end.

Definition upgrade_characters_info
    (characters_dict : entities) (ids_planets_dict : list (Z * Z))
  : outcome entities :=
  for_each
    (fun new_characters_dict item =>
       let '(key, value) := item in
       let planet_id :=
         match Dict.get value "planet" with Some v => v | None => PNone end in
       target <- planet_lookup ids_planets_dict planet_id ;;
       Ok (Dict.set new_characters_dict key (Dict.set value "planet" target)))
    characters_dict [].
End Characters.

(** ** Log records *)

(** One constructor per message template of the program; the arguments
    are the values the template interpolates.
    - [ImageError c]: "Image error. The character {c} will be uploaded
      without image."
    - [Created type name odoo_id mother_id]: "The entity type: {type},
      name: {name}, Odoo_id: {odoo_id}, mother_id: {mother_id} is
      created". *)
Inductive log_record : Type :=
| ImageError (character_id : Z)
| Created (type : string) (name : pyval) (odoo_id : Z) (mother_id : Z).

(** ** [CharactersImage] *)

(** [base64.b64encode(data).decode("ascii")] *)
Definition b64_alphabet : string :=
  "ABCDEFGHIJKLMNOPQRSTUVWXYZabcdefghijklmnopqrstuvwxyz0123456789+/".

Definition b64_char (n : N) : ascii :=
  nth (N.to_nat n) (list_ascii_of_string b64_alphabet) "="%char.

Fixpoint b64encode (data : list byte) : string :=
  match data with
  | [] => ""
  | [a] =>
      let a := Byte.to_N a in
      String (b64_char (N.shiftr a 2))
        (String (b64_char (N.shiftl (N.land a 3) 4)) "==")
  | [a; b] =>
      let a := Byte.to_N a in
      let b := Byte.to_N b in
      String (b64_char (N.shiftr a 2))
        (String (b64_char (N.lor (N.shiftl (N.land a 3) 4) (N.shiftr b 4)))
           (String (b64_char (N.shiftl (N.land b 15) 2)) "="))
  | a :: b :: c :: r =>
      let a := Byte.to_N a in
      let b := Byte.to_N b in
      let c := Byte.to_N c in
      String (b64_char (N.shiftr a 2))
        (String (b64_char (N.lor (N.shiftl (N.land a 3) 4) (N.shiftr b 4)))
           (String (b64_char (N.lor (N.shiftl (N.land b 15) 2) (N.shiftr c 6)))
              (String (b64_char (N.land c 63)) (b64encode r))))
  end.

Module CharactersImage.
Section Env.
(** [Image.open(BytesIO(response))]: whether PIL opens the payload or
    raises, whatever it raises. *)
Variable Image_open : list byte -> outcome unit.

Definition determine_response_type (response : list byte) : string :=
  match Image_open response with
  | Ok _ => "image"
  | Raise _ => "html"
  end.

(** The loop state: [image_dict] and the lines logged so far. *)
Definition upgrade_photo (image_info : list (list byte))
  : outcome (list (Z * pyval) * list log_record) :=
  for_each
    (fun st i =>
       let '(image_dict, log) := st in
       let character_id := i + 1 in
       match nth_error image_info (Z.to_nat i) with
       | None => Raise IndexError
       | Some response =>
           let type := determine_response_type response in
           if String.eqb type "image"
           then Ok (Dict.set image_dict character_id
                      (PStr (b64encode response)), log)
           else Ok (Dict.set image_dict character_id (PStr ""),
                    log ++ [ImageError character_id])
       end)
    (py_range 0 (Z.of_nat (List.length image_info)))
    ([], []).
End Env.
End CharactersImage.

(** ** [Odoo] *)

(** A reply of the XML-RPC endpoint: the value, or [xmlrpc.client.Fault]. *)
Inductive rpc_reply (A : Type) : Type :=
| Reply (a : A)
| RpcFault.

Arguments Reply {A} a.
Arguments RpcFault {A}.

(** One record of a [search_read] reply with [fields = ["name"]]. *)
Record odoo_record : Type := { id : Z; name : string }.

(** [xs.index(v)] on a list of strings; [None] stands for [ValueError]. *)
Fixpoint list_index (xs : list string) (v : pyval) : option nat :=
  match xs with
  | [] => None
  | x :: r =>
      if py_eq_str v x then Some O
      else match list_index r v with
           | Some i => Some (S i)
           | None => None
           end
  end.

Module Odoo.
(** Lines 292-293. *)
Definition index_by_id (result : list odoo_record) : list (Z * string) :=
  fold_left (fun new_dict dict => Dict.set new_dict (id dict) (name dict))
            result [].

(** The loop of lines 296-302; the state is [(del_list, ids_entity_dict)]. *)
Definition match_step (entity_in_odoo_keys : list Z)
    (entity_in_odoo_names : list string)
    (st : list Z * list (Z * Z)) (item : Z * entity)
  : outcome (list Z * list (Z * Z)) :=
  let '(del_list, ids_entity_dict) := st in
  let '(id_entity, entity) := item in
  let name :=
    match Dict.get entity "name" with Some v => v | None => PNone end in
  match list_index entity_in_odoo_names name with
  | None => Ok st
  | Some index =>
      match nth_error entity_in_odoo_keys index with
      | None => Raise IndexError
      | Some target =>
          Ok (del_list ++ [id_entity],
              Dict.set ids_entity_dict id_entity target)
      end
  end.

(** Lines 303-304. *)
Definition delete_step (entity_dict : entities) (entity : Z)
  : outcome entities :=
  match Dict.del entity_dict entity with
  | Some d => Ok d
  | None => Raise KeyError
  end.

Definition check_entity_in_odoo
    (search_read : rpc_reply (list odoo_record)) (entity_dict : entities)
  : outcome (entities * list (Z * Z)) :=
  match search_read with
  | RpcFault => Raise (SystemExit 1)
  | Reply result =>
      let new_dict := index_by_id result in
      let entity_in_odoo_keys := Dict.keys new_dict in
      let entity_in_odoo_names := Dict.values new_dict in
      st <- for_each (match_step entity_in_odoo_keys entity_in_odoo_names)
                     entity_dict ([], []) ;;
      let '(del_list, ids_entity_dict) := st in
      entity_dict <- for_each delete_step del_list entity_dict ;;
      Ok (entity_dict, ids_entity_dict)
  end.

(** The logging loop of lines 334-337. *)
Definition log_step (type : string) (ids_entity_dict : list (Z * Z))
    (log : list log_record) (item : Z * entity) : outcome (list log_record) :=
  let '(id_entity, value) := item in
  match Dict.get value "name" with
  | None => Raise KeyError
  | Some name =>
      match Dict.get ids_entity_dict id_entity with
      | None => Raise KeyError
      | Some odoo_id => Ok (log ++ [Created type name odoo_id id_entity])
      end
  end.

(** [create] is the batch create call: the list of field mappings it
    is given, and the reply of the store.  The lines logged by a call
    that raises are not tracked. *)
Definition upload_entity_info_into_oddo
    (create : list entity -> rpc_reply (list Z))
    (entity_dict : entities) (ids_entity_dict : list (Z * Z)) (type : string)
  : outcome (list (Z * Z) * list log_record) :=
  match create (Dict.values entity_dict) with
  | RpcFault => Raise Fault
  | Reply entity_odoo_id =>
      let ids_entity_dict :=
        Dict.update ids_entity_dict
          (Dict.update [] (combine (Dict.keys entity_dict) entity_odoo_id)) in
      log <- for_each (log_step type ids_entity_dict) entity_dict [] ;;
      Ok (ids_entity_dict, log)
  end.
End Odoo.

(** ** Reference definitions for the statements *)

(** Whether PIL opens a payload, i.e. the payload decodes as an image. *)
Definition opens (Image_open : list byte -> outcome unit) (response : list byte)
  : bool :=
  match Image_open response with
  | Ok _ => true
  | Raise _ => false
  end.

(** The number of "Image error" lines of a log that name [character_id]. *)
Definition image_errors (character_id : Z) (log : list log_record) : nat :=
  List.length
    (filter (fun r => match r with
                      | ImageError c => c =? character_id
                      | Created _ _ _ _ => false
                      end) log).

(** The image dictionary and the log of [upgrade_photo] written by
    recursion on the payloads, [i] being the index of the first one. *)
Fixpoint photo_entries (Image_open : list byte -> outcome unit)
    (l : list (list byte)) (i : Z) : list (Z * pyval) :=
  match l with
  | [] => []
  | response :: r =>
      (i + 1, PStr (if opens Image_open response then b64encode response else ""))
        :: photo_entries Image_open r (i + 1)
  end.

Fixpoint photo_log (Image_open : list byte -> outcome unit)
    (l : list (list byte)) (i : Z) : list log_record :=
  match l with
  | [] => []
  | response :: r =>
      (if opens Image_open response then [] else [ImageError (i + 1)])
        ++ photo_log Image_open r (i + 1)
  end.

(** [e.get("planet")] for an entity [e]. *)
Definition planet_of (e : entity) : pyval :=
  match Dict.get e "planet" with
  | Some v => v
  | None => PNone
  end.

(** [primary_id_map.get(planet, "")] for a hashable [planet]. *)
Definition resolve (ids : list (Z * Z)) (planet : pyval) : pyval :=
  match planet with
  | PInt z =>
      match Dict.get ids z with
      | Some t => PInt t
      | None => PStr ""
      end
  | _ => PStr ""
  end.

(** What lines 217-218 do to the entity stored under [characters_id]. *)
Definition attach_image (image_dict : list (Z * pyval)) (characters_id : Z)
    (values : entity) : entity :=
  if negb (py_eq_str (Characters.image_of image_dict characters_id) "")
  then Dict.set values "image_1920" (Characters.image_of image_dict characters_id)
  else values.

(** [e.get("name")] for an entity [e]. *)
Definition name_of (e : entity) : pyval :=
  match Dict.get e "name" with
  | Some v => v
  | None => PNone
  end.

(** Whether some record of the store bears the name [v]. *)
Definition name_exists (result : list odoo_record) (v : pyval) : bool :=
  existsb (fun r => py_eq_str v (name r)) result.

(** The id of the first record of the store that bears the name [v]. *)
Fixpoint first_id_named (result : list odoo_record) (v : pyval) : option Z :=
  match result with
  | [] => None
  | r :: rest => if py_eq_str v (name r) then Some (id r) else first_id_named rest v
  end.

(** The candidates matched by name, each with the id it resolves to. *)
Definition matched_ids (result : list odoo_record) (entity_dict : entities)
  : list (Z * Z) :=
  flat_map (fun kv => match first_id_named result (name_of (snd kv)) with
                      | Some t => [(fst kv, t)]
                      | None => []
                      end) entity_dict.

(** The candidates no record of the store matches by name. *)
Definition unmatched (result : list odoo_record) (entity_dict : entities)
  : entities :=
  filter (fun kv => negb (name_exists result (name_of (snd kv)))) entity_dict.

(** [record.get(key, default)] for a record that is a JSON object. *)
Definition field (record : pyval) (key : string) (default : pyval) : pyval :=
  match record with
  | PDict d =>
      match Dict.get d key with
      | Some v => v
      | None => default
      end
  | _ => default
  end.

(** A record the normalisers keep: its name is not the sentinel. *)
Definition retained (record : pyval) : bool :=
  negb (py_eq_str (field record "name" (PStr "")) "unknown").

(** The records of one page, and of a sequence of pages in iteration
    order. *)
Definition page_items (page : pyval) : outcome (list pyval) :=
  results <- py_get page "results" (PStr "") ;; py_iter results.

Fixpoint all_items (json_list : list pyval) : outcome (list pyval) :=
  match json_list with
  | [] => Ok []
  | page :: rest =>
      items <- page_items page ;;
      more <- all_items rest ;;
      Ok (items ++ more)
  end.

(** The shape shared by the two page loops (lines 151-153 and 191-193):
    [step] is the body of the inner loop. *)
Definition pages_loop {S : Type} (step : S -> pyval -> outcome S)
    (json_list : list pyval) (s : S) : outcome S :=
  for_each (fun s page =>
              results <- py_get page "results" (PStr "") ;;
              items <- py_iter results ;;
              for_each step items s)
           json_list s.

(** The canonical record lines 167-176 build for a planet. *)
Definition canonical_planet (planet : pyval) : entity :=
  [("name", field planet "name" (PStr ""));
   ("diameter", Planets.blank (field planet "diameter" PNone));
   ("rotation_period", Planets.blank (field planet "rotation_period" PNone));
   ("orbital_period", Planets.blank (field planet "orbital_period" PNone));
   ("population", Planets.blank (field planet "population" PNone))].

(** The homeworld reference of a character record, [""] when absent. *)
Definition homeworld (character : pyval) : pyval :=
  field character "homeworld" (PStr "").

(** ** [Asynchron] *)

(** What one pass through the body of the retry loop gives: the
    payload, or an [Exception] (what [except Exception] catches; a
    [BaseException] such as a cancellation is outside the model). *)
Inductive attempt (A : Type) : Type :=
| Received (a : A)
| Failed.

Arguments Received {A} a.
Arguments Failed {A}.

Module Asynchron.
(** The line logged before a retry (lines 100-102 and 115-117). *)
Definition retry_line (url : string) : string :=
  ("Data acquisition error. Repeated attempt to receive data at " ++ url)%string.

Section Env.
Context {A : Type}.

(** [session url k] is what the [k]-th request (from 0) to [url] gives;
    the answers to one URL do not depend on the requests made to the
    others, and the URLs of one batch are distinct. *)
Variable session : string -> nat -> attempt A.

(** The loop [while True: try: ... return ... except Exception: log],
    shared by [get_entity] and [get_photo], from request [k] on and cut
    after [fuel] iterations: [None] means that the loop is still
    running.  The result is the payload with the lines logged. *)
Fixpoint retry (fuel : nat) (url : string) (k : nat) : option (A * list string) :=
  match fuel with
  | O => None
  | S fuel =>
      match session url k with
      | Received a => Some (a, [])
      | Failed =>
          match retry fuel url (S k) with
          | Some (a, log) => Some (a, retry_line url :: log)
          | None => None
          end
      end
  end.

(** [gather] over one coroutine per URL: the payloads come back in the
    order of the URLs.  The lines are kept per URL, since the order in
    which lines of different URLs reach the log depends on scheduling. *)
Fixpoint gather (fuel : nat) (urls : list string)
  : option (list A * list (list string)) :=
  match urls with
  | [] => Some ([], [])
  | url :: rest =>
      match retry fuel url 0, gather fuel rest with
      | Some (a, log), Some (payloads, logs) => Some (a :: payloads, log :: logs)
      | _, _ => None
      end
  end.
End Env.

(** [get_entity] reads the body as JSON, [get_photo] as bytes. *)
Definition get_entity (session : string -> nat -> attempt pyval)
    (fuel : nat) (url : string) : option (pyval * list string) :=
  retry session fuel url 0.

Definition get_photo (session : string -> nat -> attempt (list byte))
    (fuel : nat) (url : string) : option (list byte * list string) :=
  retry session fuel url 0.

(** [request_all(urls, type, photo)]: the flag chooses the loop; the
    progress bar is left out. *)
Definition request_all
    (session_json : string -> nat -> attempt pyval)
    (session_bytes : string -> nat -> attempt (list byte))
    (fuel : nat) (urls : list string) (photo : bool)
  : option ((list pyval + list (list byte)) * list (list string)) :=
  if photo
  then match gather session_bytes fuel urls with
       | Some (json_list, logs) => Some (inr json_list, logs)
       | None => None
       end
  else match gather session_json fuel urls with
       | Some (json_list, logs) => Some (inl json_list, logs)
       | None => None
       end.
End Asynchron.

(** ** The script (lines 341-416) *)

Module Main.
(** Lines 361-376: the planets, from the fetched pages to the id map. *)
Definition upload_planets
    (search_read : rpc_reply (list odoo_record))
    (create : list entity -> rpc_reply (list Z))
    (json_planets : list pyval)
  : outcome (list (Z * Z) * list log_record) :=
  planet_dict <- Planets.generate_planet_info json_planets ;;
  checked <- Odoo.check_entity_in_odoo search_read planet_dict ;;
  let '(planet_dict, ids_planets_dict) := checked in
  Odoo.upload_entity_info_into_oddo create planet_dict ids_planets_dict "planet".

(** Lines 388-398: the photographs of the characters.  [fetch_photo url]
    is the payload [request_all] ends up with for [url]. *)
Definition attach_photos
    (Image_open : list byte -> outcome unit)
    (fetch_photo : string -> list byte)
    (image_url : string) (characters_dict : entities)
  : outcome (entities * list log_record) :=
  let urls_to_request :=
    Generator.generate_photo_urls image_url
      (Z.of_nat (List.length characters_dict) + 1) in
  let photo_characters := map fetch_photo urls_to_request in
  photos <- CharactersImage.upgrade_photo Image_open photo_characters ;;
  let '(image_dict, log) := photos in
  Ok (Characters.upgrage_characters_photo characters_dict image_dict, log).

(** Lines 401-415: the characters, from the dictionary with photographs
    to the id map. *)
Definition upload_characters
    (search_read : rpc_reply (list odoo_record))
    (create : list entity -> rpc_reply (list Z))
    (changed_characters_dict : entities) (ids_planets_dict : list (Z * Z))
  : outcome (list (Z * Z) * list log_record) :=
  checked <- Odoo.check_entity_in_odoo search_read changed_characters_dict ;;
  let '(characters_dict, ids_character_dict) := checked in
  new_characters_dict <-
    Characters.upgrade_characters_info characters_dict ids_planets_dict ;;
  Odoo.upload_entity_info_into_oddo create new_characters_dict ids_character_dict
    "character".
End Main.

(** * Properties *)

(** ** Dictionaries *)

Section DictFacts.
Context {K V : Type} `{EqKey K}.
Implicit Types (d : list (K * V)) (k : K) (v : V).

Lemma keqb_refl k : keqb k k = true.
Proof. now apply keqb_eq. Qed.

Lemma keqb_neq k k' : k <> k' -> keqb k k' = false.
Proof.
  intros Hne. destruct (keqb k k') eqn:E; [|reflexivity].
  apply keqb_eq in E. contradiction.
Qed.

Lemma keqb_false k k' : keqb k k' = false -> k <> k'.
Proof.
  intros E Heq. subst. rewrite keqb_refl in E. discriminate.
Qed.

Lemma get_set_eq d k v : Dict.get (Dict.set d k v) k = Some v.
Proof.
  induction d as [|[k' v'] r IH]; simpl.
  - now rewrite keqb_refl.
  - destruct (keqb k' k) eqn:E; simpl; rewrite E; [reflexivity|exact IH].
Qed.

Lemma get_set_neq d k k' v :
  k <> k' -> Dict.get (Dict.set d k v) k' = Dict.get d k'.
Proof.
  intros Hne. induction d as [|[k0 v0] r IH]; simpl.
  - now rewrite (keqb_neq Hne).
  - destruct (keqb k0 k) eqn:E; simpl.
    + apply keqb_eq in E. subst k0. now rewrite (keqb_neq Hne).
    + now rewrite IH.
Qed.

Lemma get_none_notin d k : Dict.get d k = None <-> ~ In k (Dict.keys d).
Proof.
  induction d as [|[k' v'] r IH]; simpl.
  - tauto.
  - destruct (keqb k' k) eqn:E.
    + apply keqb_eq in E. split; [discriminate|]. intros Hn. exfalso. auto.
    + apply keqb_false in E. rewrite IH. tauto.
Qed.

Lemma get_none_notin_inv d k : Dict.get d k <> None -> In k (Dict.keys d).
Proof.
  induction d as [|[k' v'] r IH]; simpl; [congruence|].
  destruct (keqb k' k) eqn:E.
  - apply keqb_eq in E. intros _. now left.
  - intros Hg. right. now apply IH.
Qed.

Lemma get_some_in d k v : Dict.get d k = Some v -> In (k, v) d.
Proof.
  induction d as [|[k' v'] r IH]; simpl; [discriminate|].
  destruct (keqb k' k) eqn:E.
  - apply keqb_eq in E. intros [= ->]. subst. now left.
  - auto.
Qed.

Lemma in_get_some d k v : Dict.wf d -> In (k, v) d -> Dict.get d k = Some v.
Proof.
  unfold Dict.wf. induction d as [|[k' v'] r IH]; simpl; [tauto|].
  intros Hnd [Heq|Hin]; inversion Hnd; subst.
  - inversion Heq; subst. now rewrite keqb_refl.
  - destruct (keqb k' k) eqn:E; [|auto].
    apply keqb_eq in E. subst k'. exfalso.
    match goal with Hn : ~ In _ _ |- _ => apply Hn end.
    unfold Dict.keys. change k with (fst (k, v)). now apply in_map.
Qed.

Lemma set_notin d k v : ~ In k (Dict.keys d) -> Dict.set d k v = d ++ [(k, v)].
Proof.
  induction d as [|[k' v'] r IH]; simpl; [reflexivity|].
  intros Hn. rewrite keqb_neq by auto. f_equal. auto.
Qed.

Lemma set_set d k v v' : Dict.set (Dict.set d k v) k v' = Dict.set d k v'.
Proof.
  induction d as [|[k' v0] r IH]; simpl.
  - now rewrite keqb_refl.
  - destruct (keqb k' k) eqn:E; simpl; rewrite E; [reflexivity|now rewrite IH].
Qed.

Lemma keys_set_in d k v : In k (Dict.keys d) -> Dict.keys (Dict.set d k v) = Dict.keys d.
Proof.
  induction d as [|[k' v'] r IH]; simpl; [tauto|].
  intros Hin. destruct (keqb k' k) eqn:E; simpl; [reflexivity|].
  f_equal. apply IH. destruct Hin as [->|]; [|assumption].
  rewrite keqb_refl in E. discriminate.
Qed.

Lemma keys_set d k v :
  Dict.keys (Dict.set d k v) = Dict.keys d
  \/ (~ In k (Dict.keys d) /\ Dict.keys (Dict.set d k v) = Dict.keys d ++ [k]).
Proof.
  destruct (in_dec (fun a b => match keqb a b as x return keqb a b = x -> _ with
                               | true => fun E => left (proj1 (keqb_eq a b) E)
                               | false => fun E => right (keqb_false E)
                               end eq_refl) k (Dict.keys d)) as [Hin|Hn].
  - left. now apply keys_set_in.
  - right. split; [assumption|]. rewrite set_notin by assumption.
    unfold Dict.keys. now rewrite map_app.
Qed.

Lemma wf_set d k v : Dict.wf d -> Dict.wf (Dict.set d k v).
Proof.
  unfold Dict.wf. intros Hwf.
  destruct (keys_set d k v) as [->|[Hn ->]]; [assumption|].
  apply NoDup_app; [assumption|repeat constructor; simpl; tauto|].
  intros x Hx [<-|[]]. contradiction.
Qed.

(** Assigning the pairs of a list whose keys are new and distinct
    appends them in order. *)
Lemma update_app d l :
  NoDup (Dict.keys d ++ Dict.keys l) -> Dict.update d l = d ++ l.
Proof.
  unfold Dict.update. revert d.
  induction l as [|[k v] r IH]; intros d Hnd; simpl.
  - now rewrite app_nil_r.
  - simpl in Hnd. rewrite set_notin.
    + rewrite IH.
      * now rewrite <- app_assoc.
      * unfold Dict.keys in *. rewrite map_app. simpl.
        rewrite <- app_assoc. exact Hnd.
    + apply NoDup_remove_2 in Hnd. intros Hin. apply Hnd.
      apply in_or_app. now left.
Qed.

Lemma wf_update d l : Dict.wf d -> Dict.wf (Dict.update d l).
Proof.
  unfold Dict.update. revert d.
  induction l as [|[k v] r IH]; intros d Hwf; simpl; [assumption|].
  apply IH. now apply wf_set.
Qed.

Lemma rebuild_wf d : Dict.wf d -> Dict.update [] d = d.
Proof. intros Hwf. now apply (update_app []). Qed.
End DictFacts.

(** ** Ranges *)

Lemma py_range_length a b : List.length (py_range a b) = Z.to_nat (b - a).
Proof. unfold py_range. now rewrite length_map, length_seq. Qed.

Lemma py_range_nth a b i :
  (i < Z.to_nat (b - a))%nat ->
  nth_error (py_range a b) i = Some (a + Z.of_nat i).
Proof.
  intros Hi. unfold py_range.
  rewrite nth_error_map, nth_error_seq.
  destruct (Nat.ltb_spec i (Z.to_nat (b - a))); [reflexivity|lia].
Qed.

Lemma py_range_succ a n :
  py_range a (a + Z.of_nat (S n)) = py_range a (a + Z.of_nat n) ++ [a + Z.of_nat n].
Proof.
  unfold py_range.
  replace (Z.to_nat (a + Z.of_nat (S n) - a)) with (S n) by lia.
  replace (Z.to_nat (a + Z.of_nat n - a)) with n by lia.
  now rewrite seq_S, map_app.
Qed.

(** ** [Generator.generate_entity_urls] *)

(** The number of pages the code computes is the ceiling of [amount / 10]. *)
Lemma pages_ceiling amount :
  (if amount mod 10 =? 0 then amount / 10 else amount / 10 + 1)
  = (amount + 9) / 10.
Proof.
  destruct (Z.eqb_spec (amount mod 10) 0); Z.div_mod_to_equations; lia.
Qed.

(** C5: for a nonnegative item count the planner returns exactly
    ceil(count / 10) URLs, the i-th one (0-based) being
    [base_url?page=(i+1)], so pages are 1-indexed and ascending; a count
    of 0 gives no URL, 10 gives one and 11 gives two. *)
Theorem generate_entity_urls_pages :
  forall (count : string -> Z) (base_url : string),
    0 <= count base_url ->
    let urls := Generator.generate_entity_urls count base_url in
    let pages := (count base_url + 9) / 10 in
    10 * (pages - 1) < count base_url <= 10 * pages
    /\ Z.of_nat (List.length urls) = pages
    /\ (forall i : nat,
          (i < List.length urls)%nat ->
          nth_error urls i
          = Some (base_url ++ "?page=" ++ py_str_int (Z.of_nat i + 1))%string)
    /\ (count base_url = 0 -> urls = [])
    /\ (count base_url = 10 -> urls = [(base_url ++ "?page=1")%string])
    /\ (count base_url = 11 ->
        urls = [(base_url ++ "?page=1")%string; (base_url ++ "?page=2")%string]).
Proof.
  intros count base_url Hpos urls pages.
  assert (Hurls : urls = map (fun page => (base_url ++ "?page=" ++ py_str_int page)%string)
                             (py_range 1 (pages + 1))).
  { subst urls pages. unfold Generator.generate_entity_urls.
    now rewrite pages_ceiling. }
  assert (Hpages : 0 <= pages).
  { subst pages. apply Z.div_pos; lia. }
  assert (Hlen : List.length urls = Z.to_nat pages).
  { rewrite Hurls, length_map, py_range_length. f_equal. lia. }
  split; [subst pages; Z.div_mod_to_equations; lia|].
  split; [lia|].
  split.
  { intros i Hi. rewrite Hurls, nth_error_map, py_range_nth by lia.
    cbn [option_map]. now rewrite (Z.add_comm 1). }
  repeat split; intros Hc; rewrite Hurls; subst pages; rewrite Hc; reflexivity.
Qed.

Lemma generate_entity_urls_pages_witness :
  let count := fun _ : string => 11 in
  let urls := Generator.generate_entity_urls count "https://swapi.dev/api/planets/" in
  0 <= count "https://swapi.dev/api/planets/"
  /\ Z.of_nat (List.length urls) = 2
  /\ urls = ["https://swapi.dev/api/planets/?page=1";
             "https://swapi.dev/api/planets/?page=2"].
Proof.
  intros count urls.
  split; [subst count; simpl; lia|].
  pose proof (generate_entity_urls_pages count "https://swapi.dev/api/planets/") as H.
  assert (Hc : 0 <= count "https://swapi.dev/api/planets/") by (subst count; simpl; lia).
  specialize (H Hc). simpl in H.
  destruct H as (_ & Hlen & _ & _ & _ & H11).
  split; [exact Hlen|apply H11; reflexivity].
Defined.

(** ** Loops *)

Lemma for_each_app {S A : Type} (body : S -> A -> outcome S) (l1 l2 : list A) (s : S) :
  for_each body (l1 ++ l2) s = (s' <- for_each body l1 s ;; for_each body l2 s').
Proof.
  revert s. induction l1 as [|x r IH]; intros s; simpl; [reflexivity|].
  destruct (body s x); simpl; [apply IH|reflexivity].
Qed.

(** ** [CharactersImage] *)

Lemma b64encode_nonempty (data : list byte) : data <> [] -> b64encode data <> "".
Proof.
  destruct data as [|a [|b [|c r]]]; simpl; intros Hne; [contradiction| | |];
    discriminate.
Qed.

Lemma determine_response_type_opens Image_open response :
  CharactersImage.determine_response_type Image_open response
  = if opens Image_open response then "image" else "html".
Proof.
  unfold CharactersImage.determine_response_type, opens.
  now destruct (Image_open response).
Qed.

Section PhotoFacts.
Variable Image_open : list byte -> outcome unit.

Lemma photo_entries_app l1 l2 i :
  photo_entries Image_open (l1 ++ l2) i
  = photo_entries Image_open l1 i
    ++ photo_entries Image_open l2 (i + Z.of_nat (List.length l1)).
Proof.
  revert i. induction l1 as [|x r IH]; intros i; simpl.
  - now rewrite Z.add_0_r.
  - rewrite IH. do 3 f_equal. lia.
Qed.

Lemma photo_log_app l1 l2 i :
  photo_log Image_open (l1 ++ l2) i
  = photo_log Image_open l1 i
    ++ photo_log Image_open l2 (i + Z.of_nat (List.length l1)).
Proof.
  revert i. induction l1 as [|x r IH]; intros i; simpl.
  - now rewrite Z.add_0_r.
  - rewrite IH, <- app_assoc. do 3 f_equal. lia.
Qed.

Lemma photo_entries_keys l i :
  Dict.keys (photo_entries Image_open l i)
  = py_range (i + 1) (i + 1 + Z.of_nat (List.length l)).
Proof.
  revert i. induction l as [|x r IH]; intros i.
  - simpl. unfold py_range. now replace (i + 1 + 0 - (i + 1)) with 0 by lia.
  - cbn [photo_entries Dict.keys map fst List.length]. fold (Dict.keys (photo_entries Image_open r (i + 1))).
    rewrite IH. unfold py_range.
    replace (Z.to_nat (i + 1 + Z.of_nat (S (List.length r)) - (i + 1)))
      with (S (List.length r)) by lia.
    replace (Z.to_nat (i + 1 + 1 + Z.of_nat (List.length r) - (i + 1 + 1)))
      with (List.length r) by lia.
    cbn [seq map]. f_equal; [lia|].
    rewrite <- seq_shift, map_map. apply map_ext. intros a. lia.
Qed.

Lemma photo_entries_get l i j response :
  nth_error l j = Some response ->
  Dict.get (photo_entries Image_open l i) (i + Z.of_nat j + 1)
  = Some (PStr (if opens Image_open response then b64encode response else "")).
Proof.
  revert i j. induction l as [|x r IH]; intros i j Hj.
  - destruct j; discriminate.
  - destruct j as [|j]; simpl in Hj |- *.
    + injection Hj as ->.
      replace (i + 0 + 1) with (i + 1) by lia. now rewrite Z.eqb_refl.
    + destruct (Z.eqb_spec (i + 1) (i + Z.pos (Pos.of_succ_nat j) + 1)); [lia|].
      replace (i + Z.pos (Pos.of_succ_nat j) + 1) with (i + 1 + Z.of_nat j + 1) by lia.
      now apply IH.
Qed.

Lemma image_errors_app c l1 l2 :
  image_errors c (l1 ++ l2) = (image_errors c l1 + image_errors c l2)%nat.
Proof. unfold image_errors. now rewrite filter_app, length_app. Qed.

Lemma photo_log_later l i c : c <= i -> image_errors c (photo_log Image_open l i) = 0%nat.
Proof.
  revert i. induction l as [|x r IH]; intros i Hc; simpl; [reflexivity|].
  rewrite image_errors_app, IH by lia.
  destruct (opens Image_open x); [reflexivity|].
  unfold image_errors. simpl.
  destruct (Z.eqb_spec (i + 1) c); [lia|reflexivity].
Qed.

Lemma photo_log_errors l i j response :
  nth_error l j = Some response ->
  image_errors (i + Z.of_nat j + 1) (photo_log Image_open l i)
  = if opens Image_open response then 0%nat else 1%nat.
Proof.
  revert i j. induction l as [|x r IH]; intros i j Hj.
  - destruct j; discriminate.
  - destruct j as [|j]; simpl in Hj; cbn [photo_log]; rewrite image_errors_app.
    + injection Hj as ->. rewrite photo_log_later by lia.
      destruct (opens Image_open response); [reflexivity|].
      unfold image_errors. simpl.
      destruct (Z.eqb_spec (i + 1) (i + 0 + 1)); [reflexivity|lia].
    + replace (i + Z.of_nat (S j) + 1) with (i + 1 + Z.of_nat j + 1) by lia.
      rewrite (IH _ _ Hj).
      destruct (opens Image_open x); [reflexivity|].
      unfold image_errors at 1. simpl.
      destruct (Z.eqb_spec (i + 1) (i + 1 + Z.of_nat j + 1)); [lia|reflexivity].
Qed.

(** The loop of [upgrade_photo] over the first [m] indices. *)
Lemma upgrade_photo_prefix image_info m :
  (m <= List.length image_info)%nat ->
  for_each
    (fun st i =>
       let '(image_dict, log) := st in
       let character_id := i + 1 in
       match nth_error image_info (Z.to_nat i) with
       | None => Raise IndexError
       | Some response =>
           let type := CharactersImage.determine_response_type Image_open response in
           if String.eqb type "image"
           then Ok (Dict.set image_dict character_id (PStr (b64encode response)), log)
           else Ok (Dict.set image_dict character_id (PStr ""),
                    log ++ [ImageError character_id])
       end)
    (py_range 0 (0 + Z.of_nat m)) ([], [])
  = Ok (photo_entries Image_open (firstn m image_info) 0,
        photo_log Image_open (firstn m image_info) 0).
Proof.
  induction m as [|m IH]; intros Hm; [reflexivity|].
  rewrite py_range_succ, for_each_app, IH by lia.
  cbn [bind for_each]. rewrite Z.add_0_l, Nat2Z.id.
  destruct (nth_error image_info m) as [response|] eqn:Hnth;
    [|apply nth_error_None in Hnth; lia].
  assert (Hfirst : firstn (S m) image_info = firstn m image_info ++ [response]).
  { clear IH Hm. revert image_info Hnth.
    induction m as [|m IHm]; intros [|x r] Hnth; try discriminate.
    - now injection Hnth as ->.
    - simpl in Hnth. cbn [firstn app]. f_equal. now apply IHm. }
  assert (Hlen : List.length (firstn m image_info) = m) by (apply firstn_length_le; lia).
  rewrite Hfirst, photo_entries_app, photo_log_app, Hlen.
  rewrite determine_response_type_opens.
  rewrite set_notin, set_notin.
  - rewrite !Z.add_0_l. cbn [photo_entries photo_log].
    destruct (opens Image_open response); simpl; rewrite ?app_nil_r; reflexivity.
  - rewrite photo_entries_keys, Hlen. unfold py_range.
    rewrite in_map_iff. intros (a & Ha & Hin). apply in_seq in Hin. lia.
  - rewrite photo_entries_keys, Hlen. unfold py_range.
    rewrite in_map_iff. intros (a & Ha & Hin). apply in_seq in Hin. lia.
Qed.

Lemma upgrade_photo_closed_form image_info :
  CharactersImage.upgrade_photo Image_open image_info
  = Ok (photo_entries Image_open image_info 0, photo_log Image_open image_info 0).
Proof.
  unfold CharactersImage.upgrade_photo.
  change (Z.of_nat (List.length image_info)) with (0 + Z.of_nat (List.length image_info)).
  rewrite upgrade_photo_prefix by lia. now rewrite firstn_all.
Qed.
End PhotoFacts.

(** C7: [upgrade_photo] never raises; the payload at 0-based index [i]
    is stored under key [i + 1]; a payload that decodes as an image is
    stored as the base64 text of its bytes (non-empty when the payload
    is), with no diagnostic; a payload that fails to decode is stored as
    the empty string and exactly one "Image error" line naming [i + 1]
    is logged. *)
Theorem upgrade_photo_classifies :
  forall (Image_open : list byte -> outcome unit) (image_info : list (list byte)),
  exists (image_dict : list (Z * pyval)) (log : list log_record),
    CharactersImage.upgrade_photo Image_open image_info = Ok (image_dict, log)
    /\ forall (i : nat) (response : list byte),
         nth_error image_info i = Some response ->
         let character_id := Z.of_nat i + 1 in
         if opens Image_open response
         then Dict.get image_dict character_id = Some (PStr (b64encode response))
              /\ (response <> [] -> b64encode response <> "")
              /\ image_errors character_id log = 0%nat
         else Dict.get image_dict character_id = Some (PStr "")
              /\ image_errors character_id log = 1%nat.
Proof.
  intros Image_open image_info.
  exists (photo_entries Image_open image_info 0), (photo_log Image_open image_info 0).
  split; [apply upgrade_photo_closed_form|].
  intros i response Hnth character_id.
  pose proof (photo_entries_get Image_open image_info 0 i Hnth) as Hget.
  pose proof (photo_log_errors Image_open image_info 0 i Hnth) as Herr.
  rewrite Z.add_0_l in Hget, Herr. fold character_id in Hget, Herr.
  destruct (opens Image_open response).
  - repeat split; [exact Hget|apply b64encode_nonempty|exact Herr].
  - split; [exact Hget|exact Herr].
Qed.

(** C10: [determine_response_type] answers "image" or "html" on every
    payload, whatever the decoder does, and [upgrade_photo] returns a
    dictionary whose keys are exactly 1..n in order, each bound to a
    string. *)
Theorem upgrade_photo_total :
  forall (Image_open : list byte -> outcome unit) (image_info : list (list byte)),
    (forall response : list byte,
        CharactersImage.determine_response_type Image_open response = "image"
        \/ CharactersImage.determine_response_type Image_open response = "html")
    /\ exists (image_dict : list (Z * pyval)) (log : list log_record),
         CharactersImage.upgrade_photo Image_open image_info = Ok (image_dict, log)
         /\ Dict.keys image_dict
            = py_range 1 (Z.of_nat (List.length image_info) + 1)
         /\ forall k : Z,
              1 <= k <= Z.of_nat (List.length image_info) ->
              exists s : string, Dict.get image_dict k = Some (PStr s).
Proof.
  intros Image_open image_info. split.
  - intros response. rewrite determine_response_type_opens.
    destruct (opens Image_open response); [now left|now right].
  - exists (photo_entries Image_open image_info 0), (photo_log Image_open image_info 0).
    split; [apply upgrade_photo_closed_form|]. split.
    + rewrite photo_entries_keys. f_equal. lia.
    + intros k Hk.
      destruct (nth_error image_info (Z.to_nat (k - 1))) as [response|] eqn:Hnth;
        [|apply nth_error_None in Hnth; lia].
      pose proof (photo_entries_get Image_open image_info 0 _ Hnth) as Hget.
      replace (0 + Z.of_nat (Z.to_nat (k - 1)) + 1) with k in Hget by lia.
      eauto.
Qed.

(** ** Rebuilding a dictionary entry by entry *)

Section RebuildFacts.
Context {K V : Type} `{EqKey K}.

Lemma in_set (d : list (K * V)) k v k' v' :
  In (k, v) (Dict.set d k' v') -> (k, v) = (k', v') \/ In (k, v) d.
Proof.
  induction d as [|[k0 v0] r IH]; simpl.
  - intros [Heq|[]]. left. now symmetry.
  - destruct (keqb k0 k') eqn:E; simpl.
    + apply keqb_eq in E. subst k0.
      intros [Heq|Hin]; [left; now symmetry|right; now right].
    + intros [Heq|Hin]; [right; now left|].
      destruct (IH Hin); [now left|right; now right].
Qed.

Lemma in_update (d l : list (K * V)) k v :
  In (k, v) (Dict.update d l) -> In (k, v) d \/ In (k, v) l.
Proof.
  unfold Dict.update. revert d.
  induction l as [|[k0 v0] r IH]; intros d; simpl; [now left|].
  intros Hin. destruct (IH _ Hin) as [Hs|Hr]; [|right; now right].
  destruct (in_set _ _ _ _ _ Hs) as [Heq|Hd]; [right; left; now symmetry|now left].
Qed.

Lemma keys_map_snd {W : Type} (h : K -> V -> W) (d : list (K * V)) :
  Dict.keys (map (fun kv => (fst kv, h (fst kv) (snd kv))) d) = Dict.keys d.
Proof. unfold Dict.keys. rewrite map_map. now apply map_ext. Qed.

Lemma get_map_snd {W : Type} (h : K -> V -> W) (d : list (K * V)) k :
  Dict.get (map (fun kv => (fst kv, h (fst kv) (snd kv))) d) k
  = option_map (h k) (Dict.get d k).
Proof.
  induction d as [|[k0 v0] r IH]; simpl; [reflexivity|].
  destruct (keqb k0 k) eqn:E; [|exact IH].
  apply keqb_eq in E. now subst.
Qed.
End RebuildFacts.

(** ** [Characters.upgrage_characters_photo] *)

Lemma upgrage_characters_photo_update characters_dict image_dict :
  Characters.upgrage_characters_photo characters_dict image_dict
  = Dict.update []
      (map (fun kv => (fst kv, attach_image image_dict (fst kv) (snd kv)))
           characters_dict).
Proof.
  unfold Characters.upgrage_characters_photo, Dict.update.
  enough (Hacc : forall acc : entities,
             fold_left
               (fun changed item =>
                  let '(characters_id, values) := item in
                  let values :=
                    if negb (py_eq_str (Characters.image_of image_dict characters_id) "")
                    then Dict.set values "image_1920"
                           (Characters.image_of image_dict characters_id)
                    else values in
                  Dict.set changed characters_id values)
               characters_dict acc
             = fold_left (fun acc kv => Dict.set acc (fst kv) (snd kv))
                 (map (fun kv => (fst kv, attach_image image_dict (fst kv) (snd kv)))
                      characters_dict) acc) by apply Hacc.
  induction characters_dict as [|[k v] r IH]; intros acc; [reflexivity|].
  cbn [fold_left map fst snd]. apply IH.
Qed.

(** On a dictionary the result has the same keys in the same order,
    each entity having gone through [attach_image]. *)
Lemma upgrage_characters_photo_map characters_dict image_dict :
  Dict.wf characters_dict ->
  Characters.upgrage_characters_photo characters_dict image_dict
  = map (fun kv => (fst kv, attach_image image_dict (fst kv) (snd kv)))
        characters_dict.
Proof.
  intros Hwf. rewrite upgrage_characters_photo_update.
  apply rebuild_wf. unfold Dict.wf. now rewrite keys_map_snd.
Qed.

Lemma upgrage_characters_photo_wf characters_dict image_dict :
  Dict.wf (Characters.upgrage_characters_photo characters_dict image_dict).
Proof.
  rewrite upgrage_characters_photo_update. apply wf_update. constructor.
Qed.

Lemma attach_image_idem image_dict k e :
  attach_image image_dict k (attach_image image_dict k e)
  = attach_image image_dict k e.
Proof.
  unfold attach_image.
  destruct (negb (py_eq_str (Characters.image_of image_dict k) "")) eqn:E;
    rewrite ?E; [apply set_set|reflexivity].
Qed.

Lemma upgrage_characters_photo_idem characters_dict image_dict :
  Characters.upgrage_characters_photo
    (Characters.upgrage_characters_photo characters_dict image_dict) image_dict
  = Characters.upgrage_characters_photo characters_dict image_dict.
Proof.
  rewrite (upgrage_characters_photo_map image_dict
             (upgrage_characters_photo_wf characters_dict image_dict)).
  rewrite <- (map_id (Characters.upgrage_characters_photo characters_dict image_dict)) at 2.
  apply map_ext_in. intros [k e] Hin. cbn [fst snd]. f_equal.
  rewrite upgrage_characters_photo_update in Hin.
  apply in_update in Hin. destruct Hin as [[]|Hin].
  apply in_map_iff in Hin. destruct Hin as ([k0 e0] & Heq & _).
  cbn [fst snd] in Heq. injection Heq as <- <-. apply attach_image_idem.
Qed.

(** What happens to each entity, by the entry of the image map under
    its source id: a non-empty string is attached as [image_1920]; the
    empty string leaves the entity as it is; with no entry, [image_1920]
    is attached all the same, holding [None]. *)
Lemma upgrage_characters_photo_entity characters_dict image_dict k e :
  Dict.wf characters_dict ->
  In (k, e) characters_dict ->
  Dict.get (Characters.upgrage_characters_photo characters_dict image_dict) k
  = Some (match Dict.get image_dict k with
          | Some (PStr "") => e
          | Some v => Dict.set e "image_1920" v
          | None => Dict.set e "image_1920" PNone
          end).
Proof.
  intros Hwf Hin. rewrite upgrage_characters_photo_map by assumption.
  rewrite get_map_snd, (@in_get_some _ _ _ _ _ _ Hwf Hin). cbn [option_map]. f_equal.
  unfold attach_image, Characters.image_of.
  destruct (Dict.get image_dict k) as [[| | [|c s] | |]|]; reflexivity.
Qed.

(** C1 (failing input): two characters with source ids 1 and 5, and the
    image map the program builds for them (keys 1 to 3, as many as
    characters plus one).  Character 5 has no entry in the image map and
    is not returned unmodified: it gains an [image_1920] field holding
    [None]. *)
Theorem upgrage_characters_photo_missing_entry :
  Characters.upgrage_characters_photo
    [(1, [("name", PStr "Luke Skywalker"); ("planet", PInt 1)]);
     (5, [("name", PStr "Leia Organa"); ("planet", PInt 2)])]
    [(1, PStr "aGk="); (2, PStr ""); (3, PStr "")]
  = [(1, [("name", PStr "Luke Skywalker"); ("planet", PInt 1);
          ("image_1920", PStr "aGk=")]);
     (5, [("name", PStr "Leia Organa"); ("planet", PInt 2);
          ("image_1920", PNone)])].
Proof. reflexivity. Qed.

(** ** [Characters.upgrade_characters_info] *)

Lemma for_each_invariant {S A : Type} (P : S -> Prop) (body : S -> A -> outcome S)
    (l : list A) (s s' : S) :
  P s ->
  (forall s0 x s1, P s0 -> In x l -> body s0 x = Ok s1 -> P s1) ->
  for_each body l s = Ok s' -> P s'.
Proof.
  revert s. induction l as [|x r IH]; intros s Hs Hstep; simpl.
  - now intros [= <-].
  - destruct (body s x) as [s1|] eqn:Hb; simpl; [|discriminate].
    apply IH.
    + apply (Hstep s x s1 Hs); [now left|exact Hb].
    + intros s0 y s2 H0 Hy. apply Hstep; [exact H0|now right].
Qed.

Lemma planet_lookup_resolve ids planet :
  hashable planet = true -> Characters.planet_lookup ids planet = Ok (resolve ids planet).
Proof. destruct planet; simpl; intros Hh; try discriminate; reflexivity. Qed.

Lemma planet_lookup_shape ids planet target :
  Characters.planet_lookup ids planet = Ok target ->
  target = PStr "" \/ exists t, target = PInt t.
Proof.
  destruct planet as [|z|s|l|d]; simpl; try discriminate;
    try (intros [= <-]; now left).
  destruct (Dict.get ids z) as [t|]; intros [= <-]; [right; eauto|now left].
Qed.

(** With hashable references the loop maps over the dictionary. *)
Lemma upgrade_characters_info_map characters_dict ids_planets_dict :
  Dict.wf characters_dict ->
  (forall k e, In (k, e) characters_dict -> hashable (planet_of e) = true) ->
  Characters.upgrade_characters_info characters_dict ids_planets_dict
  = Ok (map (fun kv => (fst kv,
                        Dict.set (snd kv) "planet"
                          (resolve ids_planets_dict (planet_of (snd kv)))))
            characters_dict).
Proof.
  intros Hwf Hhash. unfold Characters.upgrade_characters_info.
  enough (Hacc : forall acc : entities,
             NoDup (Dict.keys acc ++ Dict.keys characters_dict) ->
             for_each
               (fun new_characters_dict item =>
                  let '(key, value) := item in
                  let planet_id :=
                    match Dict.get value "planet" with Some v => v | None => PNone end in
                  target <- Characters.planet_lookup ids_planets_dict planet_id ;;
                  Ok (Dict.set new_characters_dict key (Dict.set value "planet" target)))
               characters_dict acc
             = Ok (acc ++ map (fun kv => (fst kv,
                                          Dict.set (snd kv) "planet"
                                            (resolve ids_planets_dict (planet_of (snd kv)))))
                              characters_dict)) by (apply Hacc; exact Hwf).
  clear Hwf. induction characters_dict as [|[k e] r IH]; intros acc Hnd.
  - simpl. now rewrite app_nil_r.
  - cbn [for_each]. fold (planet_of e).
    rewrite planet_lookup_resolve by (apply (Hhash k); now left).
    cbn [bind]. rewrite set_notin.
    + rewrite IH.
      * cbn [map fst snd]. now rewrite <- app_assoc.
      * intros k0 e0 Hin. apply (Hhash k0). now right.
      * unfold Dict.keys in *. rewrite map_app. cbn [map fst] in *.
        rewrite <- app_assoc. exact Hnd.
    + cbn [Dict.keys map fst] in Hnd. apply NoDup_remove_2 in Hnd.
      intros Hin. apply Hnd. apply in_or_app. now left.
Qed.

(** Whatever the input, a dictionary returned by the loop is well formed
    and every entity in it has a [planet] field holding an integer or
    the empty string. *)
Lemma upgrade_characters_info_shape characters_dict ids_planets_dict d1 :
  Characters.upgrade_characters_info characters_dict ids_planets_dict = Ok d1 ->
  Dict.wf d1
  /\ forall k e, In (k, e) d1 ->
       exists v, Dict.get e "planet" = Some v
                 /\ (v = PStr "" \/ exists t, v = PInt t).
Proof.
  unfold Characters.upgrade_characters_info.
  apply (@for_each_invariant _ _
           (fun acc : entities =>
              Dict.wf acc
              /\ forall k e, In (k, e) acc ->
                   exists v, Dict.get e "planet" = Some v
                             /\ (v = PStr "" \/ exists t, v = PInt t))).
  - split; [constructor|intros k e []].
  - intros acc [key value] acc' [Hwf Hall] _.
    destruct (Characters.planet_lookup ids_planets_dict
                match Dict.get value "planet" with Some v => v | None => PNone end)
      as [target|] eqn:Hl; simpl; [|discriminate].
    intros [= <-]. split; [now apply wf_set|].
    intros k e Hin. apply in_set in Hin. destruct Hin as [Heq|Hin]; [|eauto].
    injection Heq as -> ->. exists target. split; [apply get_set_eq|].
    eapply planet_lookup_shape; eassumption.
Qed.

Lemma set_get_same {K V : Type} `{EqKey K} (d : list (K * V)) k v :
  Dict.get d k = Some v -> Dict.set d k v = d.
Proof.
  induction d as [|[k0 v0] r IH]; simpl; [discriminate|].
  destruct (keqb k0 k) eqn:E.
  - now intros [= ->].
  - intros Hg. now rewrite IH.
Qed.

Lemma map_fixes_in {A : Type} (f : A -> A) (l : list A) :
  map f l = l -> forall x, In x l -> f x = x.
Proof.
  induction l as [|a r IH]; simpl; [tauto|].
  intros [= Ha Hr] x [<-|Hin]; auto.
Qed.

(** C9: on a dictionary of entities whose [planet] field is hashable
    (a source id, a string or [None]), [upgrade_characters_info] does not
    raise, keeps the keys and their order, and in every entity replaces
    [planet] by [ids_planets_dict.get(planet, "")], the other fields being
    untouched: a reference [p] bound to [t] becomes [t], an unbound one
    becomes the empty string.  In particular planet 5 under {5: 42}
    becomes 42 and under {} becomes "". *)
Theorem upgrade_characters_info_remaps :
  forall (characters_dict : entities) (ids_planets_dict : list (Z * Z)),
    Dict.wf characters_dict ->
    (forall k e, In (k, e) characters_dict -> hashable (planet_of e) = true) ->
    exists new_characters_dict : entities,
      Characters.upgrade_characters_info characters_dict ids_planets_dict
      = Ok new_characters_dict
      /\ Dict.keys new_characters_dict = Dict.keys characters_dict
      /\ (forall k e,
            In (k, e) characters_dict ->
            exists e',
              Dict.get new_characters_dict k = Some e'
              /\ Dict.get e' "planet"
                 = Some (match planet_of e with
                         | PInt p =>
                             match Dict.get ids_planets_dict p with
                             | Some t => PInt t
                             | None => PStr ""
                             end
                         | _ => PStr ""
                         end)
              /\ forall field : string,
                   field <> "planet" -> Dict.get e' field = Dict.get e field)
      /\ (forall k name,
            Characters.upgrade_characters_info
              [(k, [("name", name); ("planet", PInt 5)])] [(5, 42)]
            = Ok [(k, [("name", name); ("planet", PInt 42)])])
      /\ (forall k name,
            Characters.upgrade_characters_info
              [(k, [("name", name); ("planet", PInt 5)])] []
            = Ok [(k, [("name", name); ("planet", PStr "")])]).
Proof.
  intros characters_dict ids_planets_dict Hwf Hhash.
  eexists. split; [now apply upgrade_characters_info_map|].
  split; [apply (keys_map_snd (fun _ e => Dict.set e "planet" (resolve ids_planets_dict (planet_of e))))|].
  split; [|split; reflexivity].
  intros k e Hin.
  exists (Dict.set e "planet" (resolve ids_planets_dict (planet_of e))).
  split.
  - rewrite (get_map_snd (fun _ e => Dict.set e "planet" (resolve ids_planets_dict (planet_of e)))).
    now rewrite (@in_get_some _ _ _ _ _ _ Hwf Hin).
  - split; [apply get_set_eq|].
    intros field Hne. apply get_set_neq. congruence.
Qed.

Lemma upgrade_characters_info_remaps_witness :
  exists new_characters_dict : entities,
    Characters.upgrade_characters_info
      [(1, [("name", PStr "Luke Skywalker"); ("planet", PInt 5)]);
       (2, [("name", PStr "C-3PO"); ("planet", PInt 7)])]
      [(5, 42)]
    = Ok new_characters_dict
    /\ Dict.keys new_characters_dict = [1; 2].
Proof.
  destruct (@upgrade_characters_info_remaps
              [(1, [("name", PStr "Luke Skywalker"); ("planet", PInt 5)]);
               (2, [("name", PStr "C-3PO"); ("planet", PInt 7)])]
              [(5, 42)]) as (d & Hd & Hk & _).
  - repeat constructor; simpl; intuition discriminate.
  - intros k e [[= <- <-]|[[= <- <-]|[]]]; reflexivity.
  - exists d. split; [exact Hd|exact Hk].
Defined.

(** C3 (counterexample): remapping twice with the same map differs from
    remapping once: the first pass turns source id 5 into target id 42,
    the second looks 42 up as a source id and finds nothing. *)
Lemma upgrade_characters_info_not_idempotent :
  ~ (forall (characters_dict : entities) (ids_planets_dict : list (Z * Z))
            (once : entities),
        Characters.upgrade_characters_info characters_dict ids_planets_dict = Ok once ->
        Characters.upgrade_characters_info once ids_planets_dict = Ok once).
Proof.
  intros Hidem.
  specialize (Hidem [(1, [("name", PStr "Luke Skywalker"); ("planet", PInt 5)])]
                    [(5, 42)]
                    [(1, [("name", PStr "Luke Skywalker"); ("planet", PInt 42)])]
                    eq_refl).
  discriminate Hidem.
Qed.

(** C3 (amended): [upgrage_characters_photo] is idempotent for every
    entity dictionary and image map.  For [upgrade_characters_info], a
    second pass with the same id map returns the result of the first
    pass exactly when every target id the first pass wrote is itself a
    key of the map bound to itself. *)
Theorem cross_reference_idempotence :
  (forall (characters_dict : entities) (image_dict : list (Z * pyval)),
      Characters.upgrage_characters_photo
        (Characters.upgrage_characters_photo characters_dict image_dict) image_dict
      = Characters.upgrage_characters_photo characters_dict image_dict)
  /\ (forall (characters_dict : entities) (ids_planets_dict : list (Z * Z))
             (once : entities),
         Characters.upgrade_characters_info characters_dict ids_planets_dict = Ok once ->
         (Characters.upgrade_characters_info once ids_planets_dict = Ok once
          <-> forall k e t,
                In (k, e) once ->
                Dict.get e "planet" = Some (PInt t) ->
                Dict.get ids_planets_dict t = Some t)).
Proof.
  split; [exact upgrage_characters_photo_idem|].
  intros characters_dict ids_planets_dict once Honce.
  destruct (upgrade_characters_info_shape _ _ Honce) as [Hwf Hshape].
  assert (Hhash : forall k e, In (k, e) once -> hashable (planet_of e) = true).
  { intros k e Hin. destruct (Hshape k e Hin) as (v & Hv & [->|[t ->]]);
      unfold planet_of; rewrite Hv; reflexivity. }
  rewrite (upgrade_characters_info_map ids_planets_dict Hwf Hhash).
  split.
  - intros [= Hmap] k e t Hin Hget.
    pose proof (@map_fixes_in _ _ _ Hmap (k, e) Hin) as Hfix.
    cbn [fst snd] in Hfix. injection Hfix as Hfix.
    assert (Hp : Dict.get e "planet" = Some (resolve ids_planets_dict (planet_of e))).
    { rewrite <- Hfix at 1. apply get_set_eq. }
    unfold planet_of in Hp. rewrite Hget in Hp. cbn [resolve] in Hp.
    destruct (Dict.get ids_planets_dict t) as [t'|]; congruence.
  - intros Hfixed. apply f_equal.
    rewrite <- (map_id once) at 2. apply map_ext_in.
    intros [k e] Hin. cbn [fst snd]. apply f_equal.
    apply set_get_same.
    destruct (Hshape k e Hin) as (v & Hv & [->|[t ->]]);
      unfold planet_of; rewrite Hv; cbn [resolve]; [reflexivity|].
    now rewrite (Hfixed k e t Hin Hv).
Qed.

Lemma cross_reference_idempotence_witness :
  Characters.upgrade_characters_info
    [(1, [("name", PStr "Luke Skywalker"); ("planet", PStr "")])] [(5, 42)]
  = Ok [(1, [("name", PStr "Luke Skywalker"); ("planet", PStr "")])]
  /\ forall k e t,
       In (k, e) [(1, [("name", PStr "Luke Skywalker"); ("planet", PStr "")])] ->
       Dict.get e "planet" = Some (PInt t) ->
       Dict.get [(5, 42)] t = Some t.
Proof.
  split; [reflexivity|].
  apply (proj2 cross_reference_idempotence
           [(1, [("name", PStr "Luke Skywalker"); ("planet", PInt 9)])]
           [(5, 42)]
           [(1, [("name", PStr "Luke Skywalker"); ("planet", PStr "")])]
           eq_refl).
  reflexivity.
Defined.

(** ** [Odoo.check_entity_in_odoo] *)

Lemma py_eq_str_true v s : py_eq_str v s = true <-> v = PStr s.
Proof.
  destruct v; simpl; try (split; [discriminate|intros [=]]).
  rewrite String.eqb_eq. split; [now intros ->|now intros [= ->]].
Qed.

Lemma py_eq_str_false v s : py_eq_str v s = false <-> v <> PStr s.
Proof.
  rewrite <- py_eq_str_true. destruct (py_eq_str v s); split; congruence.
Qed.

(** With distinct ids the dictionary of lines 292-293 lists the records
    in order. *)
Lemma index_by_id_distinct result :
  NoDup (map id result) ->
  Odoo.index_by_id result = map (fun r => (id r, name r)) result.
Proof.
  intros Hnd. unfold Odoo.index_by_id.
  enough (Hacc : forall acc : list (Z * string),
             fold_left (fun new_dict dict => Dict.set new_dict (id dict) (name dict))
                       result acc
             = Dict.update acc (map (fun r => (id r, name r)) result)).
  { rewrite Hacc. apply rebuild_wf. unfold Dict.wf, Dict.keys.
    rewrite map_map. exact Hnd. }
  clear Hnd. unfold Dict.update.
  induction result as [|r rest IH]; intros acc; [reflexivity|apply IH].
Qed.

Lemma first_id_named_index result v :
  match list_index (map name result) v with
  | Some index => nth_error (map id result) index = first_id_named result v
                  /\ first_id_named result v <> None
  | None => first_id_named result v = None
  end.
Proof.
  induction result as [|r rest IH]; simpl; [reflexivity|].
  destruct (py_eq_str v (name r)); [split; [reflexivity|discriminate]|].
  destruct (list_index (map name rest) v); exact IH.
Qed.

Lemma first_id_named_exists result v :
  first_id_named result v <> None <-> name_exists result v = true.
Proof.
  unfold name_exists.
  induction result as [|r rest IH]; simpl; [split; [congruence|discriminate]|].
  destruct (py_eq_str v (name r)); simpl; [split; [reflexivity|discriminate]|exact IH].
Qed.

(** "First match wins", spelled out on the list of records. *)
Lemma first_id_named_split result v t :
  first_id_named result v = Some t ->
  exists pre r post,
    result = pre ++ r :: post
    /\ v = PStr (name r)
    /\ (forall r', In r' pre -> v <> PStr (name r'))
    /\ t = id r.
Proof.
  induction result as [|r rest IH]; simpl; [discriminate|].
  destruct (py_eq_str v (name r)) eqn:E.
  - intros [= <-]. exists [], r, rest. apply py_eq_str_true in E.
    repeat split; [exact E|intros r' []].
  - intros Hrest. destruct (IH Hrest) as (pre & r0 & post & -> & Hv & Hpre & Ht).
    exists (r :: pre), r0, post. repeat split; [exact Hv| |exact Ht].
    intros r' [<-|Hin]; [now apply py_eq_str_false|now apply Hpre].
Qed.

Lemma matched_ids_keys_in result entity_dict k :
  In k (Dict.keys (matched_ids result entity_dict)) -> In k (Dict.keys entity_dict).
Proof.
  unfold matched_ids.
  induction entity_dict as [|[k0 e0] rest IH]; simpl; [tauto|].
  destruct (first_id_named result (name_of e0)); simpl; intuition.
Qed.

Lemma matched_ids_wf result entity_dict :
  Dict.wf entity_dict -> Dict.wf (matched_ids result entity_dict).
Proof.
  unfold Dict.wf, matched_ids.
  induction entity_dict as [|[k0 e0] rest IH]; simpl; intros Hnd; [constructor|].
  inversion Hnd as [|? ? Hnotin Hrest]; subst.
  destruct (first_id_named result (name_of e0)); simpl; [|auto].
  constructor; [|auto].
  intros Hin. apply Hnotin. now apply (matched_ids_keys_in result).
Qed.

(** The matching loop collects the matched candidates in order. *)
Lemma match_loop result entity_dict :
  Dict.wf entity_dict ->
  for_each (Odoo.match_step (map id result) (map name result)) entity_dict ([], [])
  = Ok (Dict.keys (matched_ids result entity_dict), matched_ids result entity_dict).
Proof.
  intros Hwf.
  enough (Hacc : forall (del_list : list Z) (ids : list (Z * Z)),
             NoDup (Dict.keys ids ++ Dict.keys (matched_ids result entity_dict)) ->
             for_each (Odoo.match_step (map id result) (map name result))
                      entity_dict (del_list, ids)
             = Ok (del_list ++ Dict.keys (matched_ids result entity_dict),
                   ids ++ matched_ids result entity_dict)).
  { apply (Hacc [] []). now apply matched_ids_wf. }
  clear Hwf. unfold matched_ids.
  induction entity_dict as [|[k e] rest IH]; intros del_list ids Hnd.
  - simpl. now rewrite !app_nil_r.
  - cbn [for_each Odoo.match_step flat_map fst snd] in Hnd |- *. fold (name_of e).
    pose proof (first_id_named_index result (name_of e)) as Hidx.
    destruct (list_index (map name result) (name_of e)) as [index|].
    + destruct Hidx as [Hnth Hsome]. rewrite Hnth.
      destruct (first_id_named result (name_of e)) as [t|]; [|congruence].
      cbn [bind]. cbn [flat_map fst snd app Dict.keys map] in Hnd |- *.
      rewrite set_notin.
      * rewrite IH.
        -- now rewrite <- !app_assoc.
        -- unfold Dict.keys in *. rewrite map_app. cbn [map fst].
           rewrite <- app_assoc. exact Hnd.
      * apply NoDup_remove_2 in Hnd. intros Hin. apply Hnd.
        apply in_or_app. now left.
    + rewrite Hidx in *. cbn [bind app]. apply IH. exact Hnd.
Qed.

Lemma delete_loop_skip (k : Z) (e : entity) (ks : list Z) (d : entities) :
  ~ In k ks ->
  for_each Odoo.delete_step ks ((k, e) :: d)
  = (d' <- for_each Odoo.delete_step ks d ;; Ok ((k, e) :: d')).
Proof.
  intros Hn. revert d. induction ks as [|k' r IH]; intros d; [reflexivity|].
  cbn [for_each]. unfold Odoo.delete_step at 1 3. cbn [Dict.del keqb EqKey_Z].
  destruct (Z.eqb_spec k k') as [->|Hne]; [exfalso; apply Hn; now left|].
  destruct (Dict.del d k') as [d'|]; cbn [bind]; [|reflexivity].
  apply IH. intros Hin. apply Hn. now right.
Qed.

(** The deletion loop leaves the unmatched candidates, in order. *)
Lemma delete_loop result entity_dict :
  Dict.wf entity_dict ->
  for_each Odoo.delete_step (Dict.keys (matched_ids result entity_dict)) entity_dict
  = Ok (unmatched result entity_dict).
Proof.
  unfold Dict.wf, unmatched.
  induction entity_dict as [|[k e] rest IH]; intros Hnd; [reflexivity|].
  inversion Hnd as [|? ? Hnotin Hrest]; subst.
  unfold matched_ids. cbn [flat_map filter fst snd].
  fold (matched_ids result rest).
  pose proof (first_id_named_exists result (name_of e)) as Hex.
  destruct (first_id_named result (name_of e)) as [t|].
  - rewrite (proj1 Hex) by discriminate.
    cbn [app Dict.keys map fst for_each negb].
    unfold Odoo.delete_step at 1. cbn [Dict.del keqb EqKey_Z].
    rewrite Z.eqb_refl. cbn [bind]. now apply IH.
  - destruct (name_exists result (name_of e)).
    + exfalso. now apply (proj2 Hex).
    + cbn [app negb]. rewrite delete_loop_skip.
      * rewrite IH by assumption. reflexivity.
      * intros Hin. apply Hnotin. now apply (matched_ids_keys_in result).
Qed.

Lemma check_entity_in_odoo_closed_form result entity_dict :
  NoDup (map id result) ->
  Dict.wf entity_dict ->
  Odoo.check_entity_in_odoo (Reply result) entity_dict
  = Ok (unmatched result entity_dict, matched_ids result entity_dict).
Proof.
  intros Hids Hwf. unfold Odoo.check_entity_in_odoo.
  rewrite index_by_id_distinct by assumption.
  replace (Dict.keys (map (fun r => (id r, name r)) result)) with (map id result)
    by (unfold Dict.keys; rewrite map_map; now apply map_ext).
  replace (Dict.values (map (fun r => (id r, name r)) result)) with (map name result)
    by (unfold Dict.values; rewrite map_map; now apply map_ext).
  rewrite (match_loop result Hwf). cbn [bind].
  rewrite (delete_loop result Hwf). reflexivity.
Qed.

Lemma matched_ids_get result entity_dict k e :
  Dict.wf entity_dict ->
  In (k, e) entity_dict ->
  Dict.get (matched_ids result entity_dict) k = first_id_named result (name_of e).
Proof.
  unfold Dict.wf, matched_ids.
  induction entity_dict as [|[k0 e0] rest IH]; intros Hnd Hin; [destruct Hin|].
  inversion Hnd as [|? ? Hnotin Hrest]; subst.
  cbn [flat_map fst snd]. destruct Hin as [[= -> ->]|Hin].
  - destruct (first_id_named result (name_of e)) as [t|].
    + cbn. now rewrite Z.eqb_refl.
    + cbn [app]. apply get_none_notin. intros Hk. apply Hnotin.
      now apply (matched_ids_keys_in result).
  - assert (Hne : k0 <> k).
    { intros ->. apply Hnotin. unfold Dict.keys.
      change k with (fst (k, e)). now apply in_map. }
    destruct (first_id_named result (name_of e0)) as [t0|]; cbn [app]; [|auto].
    cbn [Dict.get keqb EqKey_Z]. destruct (Z.eqb_spec k0 k); [contradiction|auto].
Qed.

Lemma unmatched_get result entity_dict k e :
  Dict.wf entity_dict ->
  In (k, e) entity_dict ->
  Dict.get (unmatched result entity_dict) k
  = if name_exists result (name_of e) then None else Some e.
Proof.
  unfold Dict.wf, unmatched.
  induction entity_dict as [|[k0 e0] rest IH]; intros Hnd Hin; [destruct Hin|].
  inversion Hnd as [|? ? Hnotin Hrest]; subst.
  cbn [filter fst snd]. destruct Hin as [[= -> ->]|Hin].
  - destruct (name_exists result (name_of e)); cbn [negb].
    + apply get_none_notin. intros Hk. apply Hnotin.
      unfold Dict.keys in *. apply in_map_iff in Hk.
      destruct Hk as (kv & <- & Hkv). apply filter_In in Hkv.
      now apply in_map.
    + cbn. now rewrite Z.eqb_refl.
  - assert (Hne : k0 <> k).
    { intros ->. apply Hnotin. unfold Dict.keys.
      change k with (fst (k, e)). now apply in_map. }
    destruct (negb (name_exists result (name_of e0))); [|auto].
    cbn [Dict.get keqb EqKey_Z]. destruct (Z.eqb_spec k0 k); [contradiction|auto].
Qed.

Lemma name_exists_false result v :
  name_exists result v = false <-> forall r, In r result -> v <> PStr (name r).
Proof.
  unfold name_exists. split.
  - intros Hex r Hin. apply py_eq_str_false.
    destruct (py_eq_str v (name r)) eqn:E; [|reflexivity].
    rewrite <- Hex. symmetry. apply existsb_exists. eauto.
  - intros Hall. destruct (existsb _ result) eqn:E; [|reflexivity].
    apply existsb_exists in E. destruct E as (r & Hin & Heq).
    apply py_eq_str_true in Heq. now elim (Hall r Hin).
Qed.

(** C2: against a store whose records have distinct ids,
    [check_entity_in_odoo] returns as create set exactly the candidates
    whose name no existing record bears, in their order; every candidate
    whose name some record bears is removed from it and bound in the id
    map to the id of the first such record; an unmatched candidate gets
    no binding; so no candidate of the create set is matched by name. *)
Theorem check_entity_in_odoo_reconciles :
  forall (result : list odoo_record) (entity_dict : entities),
    NoDup (map id result) ->
    Dict.wf entity_dict ->
    exists (remaining : entities) (ids_entity_dict : list (Z * Z)),
      Odoo.check_entity_in_odoo (Reply result) entity_dict
      = Ok (remaining, ids_entity_dict)
      /\ remaining
         = filter (fun kv => negb (name_exists result (name_of (snd kv)))) entity_dict
      /\ (forall k e,
            In (k, e) entity_dict ->
            (exists pre r post,
                result = pre ++ r :: post
                /\ name_of e = PStr (name r)
                /\ (forall r', In r' pre -> name_of e <> PStr (name r'))
                /\ Dict.get ids_entity_dict k = Some (id r)
                /\ Dict.get remaining k = None)
            \/ ((forall r, In r result -> name_of e <> PStr (name r))
                /\ Dict.get ids_entity_dict k = None
                /\ Dict.get remaining k = Some e))
      /\ (forall k e r,
            In (k, e) remaining -> In r result -> name_of e <> PStr (name r)).
Proof.
  intros result entity_dict Hids Hwf.
  exists (unmatched result entity_dict), (matched_ids result entity_dict).
  split; [now apply check_entity_in_odoo_closed_form|].
  split; [reflexivity|]. split.
  - intros k e Hin.
    rewrite (@matched_ids_get result _ _ _ Hwf Hin), (@unmatched_get result _ _ _ Hwf Hin).
    pose proof (first_id_named_exists result (name_of e)) as Hex.
    destruct (first_id_named result (name_of e)) as [t|] eqn:Hfirst.
    + left. rewrite (proj1 Hex) by discriminate.
      destruct (@first_id_named_split _ _ _ Hfirst) as (pre & r & post & Hres & Hv & Hpre & ->).
      exists pre, r, post. repeat split; assumption.
    + right. destruct (name_exists result (name_of e)) eqn:Hne.
      * exfalso. now apply (proj2 Hex).
      * repeat split. now apply name_exists_false.
  - intros k e r Hin. unfold unmatched in Hin. apply filter_In in Hin.
    destruct Hin as [_ Hneg]. cbn [snd] in Hneg. apply negb_true_iff in Hneg.
    now apply name_exists_false.
Qed.

Lemma check_entity_in_odoo_reconciles_witness :
  exists (remaining : entities) (ids_entity_dict : list (Z * Z)),
    Odoo.check_entity_in_odoo
      (Reply [{| id := 7; name := "Luke Skywalker" |};
              {| id := 8; name := "Luke Skywalker" |};
              {| id := 9; name := "Leia Organa" |}])
      [(1, [("name", PStr "Luke Skywalker"); ("planet", PInt 1)]);
       (2, [("name", PStr "Han Solo"); ("planet", PInt 22)]);
       (5, [("name", PStr "Leia Organa"); ("planet", PInt 2)])]
    = Ok (remaining, ids_entity_dict)
    /\ remaining = [(2, [("name", PStr "Han Solo"); ("planet", PInt 22)])].
Proof.
  destruct (@check_entity_in_odoo_reconciles
              [{| id := 7; name := "Luke Skywalker" |};
               {| id := 8; name := "Luke Skywalker" |};
               {| id := 9; name := "Leia Organa" |}]
              [(1, [("name", PStr "Luke Skywalker"); ("planet", PInt 1)]);
               (2, [("name", PStr "Han Solo"); ("planet", PInt 22)]);
               (5, [("name", PStr "Leia Organa"); ("planet", PInt 2)])])
    as (remaining & ids & Hrun & Hrem & _).
  - repeat constructor; simpl; intuition discriminate.
  - repeat constructor; simpl; intuition discriminate.
  - exists remaining, ids. split; [exact Hrun|]. rewrite Hrem. reflexivity.
Defined.

(** After reconciliation the id map binds none of the remaining
    candidates. *)
Lemma check_entity_in_odoo_disjoint result entity_dict remaining ids_entity_dict :
  NoDup (map id result) ->
  Dict.wf entity_dict ->
  Odoo.check_entity_in_odoo (Reply result) entity_dict = Ok (remaining, ids_entity_dict) ->
  forall k, In k (Dict.keys remaining) -> Dict.get ids_entity_dict k = None.
Proof.
  intros Hids Hwf Hrun k Hk.
  rewrite check_entity_in_odoo_closed_form in Hrun by assumption.
  injection Hrun as <- <-.
  unfold Dict.keys in Hk. apply in_map_iff in Hk.
  destruct Hk as ([k0 e] & Hfst & Hin). cbn [fst] in Hfst. subst k0.
  unfold unmatched in Hin. apply filter_In in Hin. destruct Hin as [Hin Hneg].
  cbn [snd] in Hneg. apply negb_true_iff in Hneg.
  rewrite (@matched_ids_get result _ _ _ Hwf Hin).
  pose proof (first_id_named_exists result (name_of e)) as Hex.
  destruct (first_id_named result (name_of e)); [|reflexivity].
  rewrite (proj1 Hex) in Hneg by discriminate. discriminate.
Qed.

(** ** [Odoo.upload_entity_info_into_oddo] *)

Lemma keys_combine {K V : Type} (ks : list K) (vs : list V) :
  List.length ks = List.length vs -> Dict.keys (combine ks vs) = ks.
Proof.
  revert vs. induction ks as [|k r IH]; intros [|v vs] Hlen; try discriminate;
    [reflexivity|].
  simpl in *. f_equal. apply IH. lia.
Qed.

Lemma combine_nth_error {A B : Type} (l : list A) (l' : list B) i a b :
  nth_error l i = Some a -> nth_error l' i = Some b -> In (a, b) (combine l l').
Proof.
  revert l l'. induction i as [|i IH]; intros [|x l] [|y l']; simpl; try discriminate.
  - intros [= ->] [= ->]. now left.
  - intros Ha Hb. right. now apply IH.
Qed.

Lemma get_update {K V : Type} `{EqKey K} (d l : list (K * V)) k :
  Dict.wf l ->
  Dict.get (Dict.update d l) k
  = match Dict.get l k with
    | Some v => Some v
    | None => Dict.get d k
    end.
Proof.
  unfold Dict.wf, Dict.update. revert d.
  induction l as [|[k0 v0] r IH]; intros d Hnd; [reflexivity|].
  inversion Hnd as [|? ? Hnotin Hrest]; subst.
  cbn [fold_left fst snd Dict.get]. rewrite IH by assumption.
  destruct (keqb k0 k) eqn:E.
  - apply keqb_eq in E. subst k0.
    rewrite (proj2 (get_none_notin r k) Hnotin). apply get_set_eq.
  - apply keqb_false in E. rewrite get_set_neq by assumption. reflexivity.
Qed.

(** The logging loop writes one line per created record when every
    record has a name and an id. *)
Lemma log_loop type (ids : list (Z * Z)) (l : entities) (ts : list Z) log :
  List.length l = List.length ts ->
  (forall k e t, In (k, e, t) (combine l ts) ->
                 Dict.get e "name" <> None /\ Dict.get ids k = Some t) ->
  for_each (Odoo.log_step type ids) l log
  = Ok (log ++ map (fun x => Created type (name_of (snd (fst x))) (snd x) (fst (fst x)))
                   (combine l ts)).
Proof.
  revert ts log. induction l as [|[k e] r IH]; intros [|t ts] log Hlen Hall;
    try discriminate.
  - simpl. now rewrite app_nil_r.
  - destruct (Hall k e t) as [Hname Hid]; [now left|].
    cbn [for_each Odoo.log_step combine map fst snd]. unfold name_of.
    destruct (Dict.get e "name") as [n|]; [|congruence].
    rewrite Hid. cbn [bind]. rewrite IH with (ts := ts).
    + now rewrite <- app_assoc.
    + simpl in Hlen. lia.
    + intros k' e' t' Hin. apply Hall. now right.
Qed.

Lemma in_combine_keys (l : entities) (ts : list Z) k e t :
  In (k, e, t) (combine l ts) -> In (k, t) (combine (Dict.keys l) ts).
Proof.
  revert ts. induction l as [|[k0 e0] r IH]; intros [|t0 ts]; simpl; try tauto.
  intros [[= -> -> ->]|Hin]; [now left|right; now apply IH].
Qed.

(** C6: when the store answers the one create call, made with the
    candidates' field mappings in dictionary order, with one id per
    record, [upload_entity_info_into_oddo] returns the prior id map
    extended with the pairs (i-th source id, i-th returned id) and
    nothing else: the i-th candidate is bound to the i-th id, every other
    key is bound as before, and, the candidates being disjoint from the
    keys recorded by reconciliation, every earlier pair is still there.
    One "created" line is logged per candidate, in order. *)
Theorem upload_entity_info_into_oddo_merges :
  forall (create : list entity -> rpc_reply (list Z))
         (entity_dict : entities) (ids_entity_dict : list (Z * Z))
         (type : string) (entity_odoo_id : list Z),
    Dict.wf entity_dict ->
    create (Dict.values entity_dict) = Reply entity_odoo_id ->
    List.length entity_odoo_id = List.length entity_dict ->
    (forall k e, In (k, e) entity_dict -> Dict.get e "name" <> None) ->
    (forall k, In k (Dict.keys entity_dict) -> Dict.get ids_entity_dict k = None) ->
    exists (updated : list (Z * Z)) (log : list log_record),
      Odoo.upload_entity_info_into_oddo create entity_dict ids_entity_dict type
      = Ok (updated, log)
      /\ (forall i k t,
            nth_error (Dict.keys entity_dict) i = Some k ->
            nth_error entity_odoo_id i = Some t ->
            Dict.get updated k = Some t)
      /\ (forall k, ~ In k (Dict.keys entity_dict) ->
                    Dict.get updated k = Dict.get ids_entity_dict k)
      /\ (forall k t, Dict.get ids_entity_dict k = Some t -> Dict.get updated k = Some t)
      /\ log = map (fun x => Created type (name_of (snd (fst x))) (snd x) (fst (fst x)))
                   (combine entity_dict entity_odoo_id).
Proof.
  intros create entity_dict ids type odoo Hwf Hcreate Hlen Hnames Hdisj.
  unfold Odoo.upload_entity_info_into_oddo. rewrite Hcreate.
  assert (Hkeys : Dict.keys (combine (Dict.keys entity_dict) odoo) = Dict.keys entity_dict).
  { apply keys_combine. unfold Dict.keys. rewrite length_map. lia. }
  assert (Hnew : Dict.wf (combine (Dict.keys entity_dict) odoo)).
  { unfold Dict.wf. now rewrite Hkeys. }
  rewrite (rebuild_wf Hnew).
  set (updated := Dict.update ids (combine (Dict.keys entity_dict) odoo)).
  assert (Hbound : forall k t, In (k, t) (combine (Dict.keys entity_dict) odoo) ->
                               Dict.get updated k = Some t).
  { intros k t Hin. unfold updated. rewrite get_update by assumption.
    now rewrite (@in_get_some _ _ _ _ _ _ Hnew Hin). }
  assert (Hother : forall k, ~ In k (Dict.keys entity_dict) ->
                             Dict.get updated k = Dict.get ids k).
  { intros k Hk. unfold updated. rewrite get_update by assumption.
    rewrite <- Hkeys in Hk. now rewrite (proj2 (get_none_notin _ k) Hk). }
  rewrite (@log_loop type updated entity_dict odoo []).
  - cbn [bind app]. do 2 eexists. split; [reflexivity|].
    split; [|split; [exact Hother|split; [|reflexivity]]].
    + intros i k t Hk Ht. apply Hbound. eapply combine_nth_error; eassumption.
    + intros k t Hget. rewrite Hother; [exact Hget|].
      intros Hin. rewrite (Hdisj k Hin) in Hget. discriminate.
  - lia.
  - intros k e t Hin. split.
    + apply (Hnames k). eapply in_combine_l. exact Hin.
    + apply Hbound. now apply in_combine_keys with (e := e).
Qed.

Lemma upload_entity_info_into_oddo_merges_witness :
  exists (updated : list (Z * Z)) (log : list log_record),
    Odoo.upload_entity_info_into_oddo
      (fun batch => Reply (map (fun i => 100 + Z.of_nat i) (seq 0 (List.length batch))))
      [(2, [("name", PStr "Han Solo"); ("planet", PInt 22)]);
       (4, [("name", PStr "Yoda"); ("planet", PStr "")])]
      [(1, 7); (5, 9)] "character"
    = Ok (updated, log)
    /\ Dict.get updated 2 = Some 100
    /\ Dict.get updated 4 = Some 101
    /\ Dict.get updated 1 = Some 7
    /\ Dict.get updated 5 = Some 9.
Proof.
  destruct (@upload_entity_info_into_oddo_merges
              (fun batch => Reply (map (fun i => 100 + Z.of_nat i) (seq 0 (List.length batch))))
              [(2, [("name", PStr "Han Solo"); ("planet", PInt 22)]);
               (4, [("name", PStr "Yoda"); ("planet", PStr "")])]
              [(1, 7); (5, 9)] "character" [100; 101])
    as (updated & log & Hrun & Hnew & _ & Hold & _).
  - repeat constructor; simpl; intuition discriminate.
  - reflexivity.
  - reflexivity.
  - intros k e [[= <- <-]|[[= <- <-]|[]]]; discriminate.
  - intros k [<-|[<-|[]]]; reflexivity.
  - exists updated, log. split; [exact Hrun|].
    split; [apply (Hnew 0%nat); reflexivity|].
    split; [apply (Hnew 1%nat); reflexivity|].
    split; apply Hold; reflexivity.
Defined.

(** ** Parsing the id out of a resource URL *)

Lemma list_ascii_of_string_app (a b : string) :
  list_ascii_of_string (a ++ b) = list_ascii_of_string a ++ list_ascii_of_string b.
Proof. induction a as [|c a IH]; simpl; [reflexivity|now rewrite IH]. Qed.

(** [l[:-1]] drops the last item. *)
Lemma py_slice_drop_last {A : Type} (l : list A) (x : A) :
  py_slice (l ++ [x]) None (Some (-1)) = l.
Proof.
  unfold py_slice, slice_bound. rewrite length_app. cbn [List.length].
  destruct (Z.ltb_spec (-1) 0); [|lia].
  replace (Z.to_nat _) with (List.length l) by lia.
  cbn [Z.to_nat skipn]. rewrite firstn_app, firstn_all, Nat.sub_diag.
  cbn [firstn]. apply app_nil_r.
Qed.

(** [l[a:-1]] for [a] inside the list. *)
Lemma py_slice_middle {A : Type} (l1 l2 : list A) (x : A) :
  py_slice (l1 ++ l2 ++ [x]) (Some (Z.of_nat (List.length l1))) (Some (-1)) = l2.
Proof.
  unfold py_slice, slice_bound. rewrite !length_app. cbn [List.length].
  destruct (Z.ltb_spec (-1) 0); [|lia].
  destruct (Z.ltb_spec (Z.of_nat (List.length l1)) 0); [lia|].
  replace (Z.to_nat (Z.max 0 (Z.min _ (Z.of_nat (List.length l1))))) with (List.length l1) by lia.
  replace (Z.to_nat _) with (List.length l2) by lia.
  rewrite skipn_app, skipn_all, Nat.sub_diag. cbn [skipn app].
  rewrite firstn_app, firstn_all, Nat.sub_diag. cbn [firstn]. apply app_nil_r.
Qed.

Lemma rfind_from_absent c l i last :
  ~ In c l -> rfind_from c l i last = last.
Proof.
  revert i last. induction l as [|x r IH]; intros i last Hn; [reflexivity|].
  cbn [rfind_from]. destruct (Ascii.eqb_spec x c) as [->|_].
  - exfalso. apply Hn. now left.
  - apply IH. intros Hin. apply Hn. now right.
Qed.

Lemma rfind_from_app c l1 l2 i last :
  rfind_from c (l1 ++ l2) i last
  = rfind_from c l2 (i + Z.of_nat (List.length l1)) (rfind_from c l1 i last).
Proof.
  revert i last. induction l1 as [|x r IH]; intros i last.
  - simpl. now rewrite Z.add_0_r.
  - cbn [app rfind_from List.length]. rewrite IH. f_equal. lia.
Qed.

(** The last occurrence is found. *)
Lemma rfind_from_last c l1 l2 :
  ~ In c l2 -> rfind_from c (l1 ++ c :: l2) 0 (-1) = Z.of_nat (List.length l1).
Proof.
  intros Hn. rewrite rfind_from_app. cbn [rfind_from].
  rewrite Ascii.eqb_refl. now rewrite rfind_from_absent.
Qed.

Lemma is_digit_not_space c : is_digit c = true -> is_space c = false.
Proof.
  unfold is_digit, is_space. intros Hd.
  apply andb_true_iff in Hd. destruct Hd as [H1 H2].
  apply N.leb_le in H1. apply N.leb_le in H2.
  repeat match goal with
         | |- context [(?a <=? ?b)%N] => destruct (N.leb_spec a b)
         | |- context [(?a =? ?b)%N] => destruct (N.eqb_spec a b)
         end; try reflexivity; lia.
Qed.

Lemma is_digit_neq c c' : is_digit c = true -> is_digit c' = false -> Ascii.eqb c c' = false.
Proof.
  intros Hc Hc'. destruct (Ascii.eqb_spec c c') as [->|]; [congruence|reflexivity].
Qed.

Lemma lstrip_digits l : Forall (fun c => is_digit c = true) l -> lstrip l = l.
Proof.
  intros [|c r Hc Hr]; [reflexivity|].
  cbn [lstrip]. now rewrite (is_digit_not_space _ Hc).
Qed.

Lemma strip_digits l : Forall (fun c => is_digit c = true) l -> strip l = l.
Proof.
  intros Hl. unfold strip. rewrite (lstrip_digits Hl).
  rewrite lstrip_digits by now apply Forall_rev.
  apply rev_involutive.
Qed.

Lemma uint_chars_digits (d : Decimal.uint) :
  Forall (fun c => is_digit c = true) (list_ascii_of_string (NilEmpty.string_of_uint d)).
Proof. induction d; simpl; constructor; auto. Qed.

(** One digit of [digits_value_uint]: the character is a digit, and
    the accumulator after it is the value of the numeral read so far. *)
Ltac digit_case IH :=
  cbn [NilEmpty.string_of_uint list_ascii_of_string digits_value Decimal.revapp];
  match goal with
  | |- context [is_digit ?c] => change (is_digit c) with true
  end;
  cbv iota;
  match goal with
  | |- digits_value _ ?acc true
       = Some (Z.of_N (DecimalPos.Unsigned.of_lu (Decimal.revapp _ ?d2))) =>
      replace acc with (Z.of_N (DecimalPos.Unsigned.of_lu d2));
      [apply IH; intros _; reflexivity
      |cbn [DecimalPos.Unsigned.of_lu]; simpl N_of_ascii; lia]
  end.

(** Reading the digits of a decimal numeral back gives its value. *)
Lemma digits_value_uint (d d' : Decimal.uint) (prev : bool) :
  (d = Decimal.Nil -> prev = true) ->
  digits_value (list_ascii_of_string (NilEmpty.string_of_uint d))
               (Z.of_N (DecimalPos.Unsigned.of_lu d')) prev
  = Some (Z.of_N (DecimalPos.Unsigned.of_lu (Decimal.revapp d d'))).
Proof.
  revert d' prev.
  induction d as [|d IH|d IH|d IH|d IH|d IH|d IH|d IH|d IH|d IH|d IH];
    intros d' prev Hnil; [simpl; now rewrite Hnil|digit_case IH ..].
Qed.

Lemma py_str_int_uint n :
  0 <= n ->
  exists d : Decimal.uint,
    d <> Decimal.Nil
    /\ py_str_int n = NilEmpty.string_of_uint d
    /\ Z.of_N (Pos.of_uint d) = n.
Proof.
  intros Hn. unfold py_str_int. destruct n as [|p|p]; [| |lia].
  - exists (Decimal.D0 Decimal.Nil). repeat split. discriminate.
  - exists (Pos.to_uint p).
    pose proof (DecimalPos.Unsigned.to_uint_nonnil p) as Hnil.
    repeat split; [exact Hnil| |now rewrite DecimalPos.Unsigned.of_to].
    cbn [Z.to_int NilZero.string_of_int NilZero.string_of_uint].
    destruct (Pos.to_uint p); [contradiction|reflexivity..].
Qed.

Lemma py_str_int_digits n :
  0 <= n -> Forall (fun c => is_digit c = true) (list_ascii_of_string (py_str_int n)).
Proof.
  intros Hn. destruct (py_str_int_uint Hn) as (d & _ & -> & _).
  apply uint_chars_digits.
Qed.

(** [int(str(n)) == n] for a natural number. *)
Lemma py_int_str n : 0 <= n -> py_int (py_str_int n) = Ok n.
Proof.
  intros Hn. unfold py_int.
  rewrite strip_digits by now apply py_str_int_digits.
  pose proof (py_str_int_digits Hn) as Hdigits.
  destruct (py_str_int_uint Hn) as (d & Hnil & Hstr & Hval).
  rewrite Hstr in *.
  assert (Hread : digits_value (list_ascii_of_string (NilEmpty.string_of_uint d)) 0 false
                  = Some n).
  { change 0 with (Z.of_N (DecimalPos.Unsigned.of_lu Decimal.Nil)).
    rewrite digits_value_uint by (intros ->; contradiction).
    f_equal. rewrite <- Hval, DecimalPos.Unsigned.of_uint_alt. reflexivity. }
  destruct (list_ascii_of_string (NilEmpty.string_of_uint d)) as [|c r] eqn:Hchars.
  - now rewrite Hread.
  - inversion Hdigits as [|? ? Hc Hr]; subst.
    rewrite (is_digit_neq c "+" Hc eq_refl), (is_digit_neq c "-" Hc eq_refl).
    now rewrite Hread.
Qed.

(** A resource URL ending in [/<n>/] yields the id [n]. *)
Lemma url_id_trailing_segment (prefix : string) (n : Z) :
  0 <= n ->
  url_id (PStr (prefix ++ "/" ++ py_str_int n ++ "/")%string) = Ok n.
Proof.
  intros Hn. unfold url_id, str_slice, str_rfind.
  rewrite !list_ascii_of_string_app. cbn [list_ascii_of_string].
  set (P := list_ascii_of_string prefix).
  set (D := list_ascii_of_string (py_str_int n)).
  assert (Hslash : ~ In "/"%char D).
  { intros Hin. pose proof (py_str_int_digits Hn) as Hd.
    rewrite Forall_forall in Hd. specialize (Hd _ Hin). discriminate. }
  change (P ++ ["/"%char] ++ D ++ ["/"%char])
    with (P ++ "/"%char :: D ++ ["/"%char]).
  replace (P ++ "/"%char :: D ++ ["/"%char]) with ((P ++ "/"%char :: D) ++ ["/"%char])
    by (rewrite <- app_assoc; reflexivity).
  rewrite py_slice_drop_last, list_ascii_of_string_of_list_ascii.
  rewrite (@rfind_from_last _ P _ Hslash).
  replace ((P ++ "/"%char :: D) ++ ["/"%char]) with ((P ++ ["/"%char]) ++ D ++ ["/"%char])
    by (rewrite <- !app_assoc; reflexivity).
  replace (Z.of_nat (List.length P) + 1) with (Z.of_nat (List.length (P ++ ["/"%char])))
    by (rewrite length_app; cbn [List.length]; lia).
  rewrite py_slice_middle. subst D.
  rewrite string_of_list_ascii_of_string. now apply py_int_str.
Qed.

(** ** Pages and their records *)

Lemma for_each_app_ok {S A : Type} (body : S -> A -> outcome S) (l1 l2 : list A)
    (s s' : S) :
  for_each body (l1 ++ l2) s = Ok s' ->
  exists s1, for_each body l1 s = Ok s1 /\ for_each body l2 s1 = Ok s'.
Proof.
  rewrite for_each_app. destruct (for_each body l1 s) as [s1|]; simpl; [eauto|discriminate].
Qed.

Lemma py_get_field record key default v :
  py_get record key default = Ok v ->
  v = field record key default /\ exists d, record = PDict d.
Proof.
  destruct record; simpl; try discriminate. intros [= <-]. eauto.
Qed.

Section Pages.
Context {S : Type} (step : S -> pyval -> outcome S).

Lemma pages_loop_flatten json_list records s :
  all_items json_list = Ok records ->
  pages_loop step json_list s = for_each step records s.
Proof.
  unfold pages_loop. revert records s.
  induction json_list as [|page rest IH]; intros records s; simpl.
  - now intros [= <-].
  - unfold page_items.
    destruct (py_get page "results" (PStr "")) as [results|]; simpl; [|discriminate].
    destruct (py_iter results) as [items|]; simpl; [|discriminate].
    destruct (all_items rest) as [more|]; simpl; [|discriminate].
    intros [= <-]. rewrite for_each_app.
    destruct (for_each step items s) as [s1|]; simpl; [|reflexivity].
    now apply IH.
Qed.

Lemma pages_loop_items json_list s s' :
  pages_loop step json_list s = Ok s' -> exists records, all_items json_list = Ok records.
Proof.
  unfold pages_loop. revert s.
  induction json_list as [|page rest IH]; intros s; simpl; [eauto|].
  unfold page_items.
  destruct (py_get page "results" (PStr "")) as [results|]; simpl; [|discriminate].
  destruct (py_iter results) as [items|]; simpl; [|discriminate].
  destruct (for_each step items s) as [s1|]; simpl; [|discriminate].
  intros Hrest. destruct (IH _ Hrest) as [more ->]. simpl. eauto.
Qed.

(** A loop whose every step succeeds returns. *)
Lemma for_each_total (P : pyval -> Prop) (records : list pyval) (s : S) :
  (forall s0 x, P x -> exists s1, step s0 x = Ok s1) ->
  Forall P records ->
  exists s', for_each step records s = Ok s'.
Proof.
  intros Hstep Hall. revert s.
  induction Hall as [|x r Hx Hr IH]; intros s; simpl; [eauto|].
  destruct (Hstep s x Hx) as [s1 ->]. simpl. apply IH.
Qed.
End Pages.

(** ** [Planets.generate_planet_info] *)

Lemma planet_step_cases planet_dict planet planet_dict' :
  Planets.planet_step planet_dict planet = Ok planet_dict' ->
  (retained planet = false /\ planet_dict' = planet_dict)
  \/ (retained planet = true
      /\ exists planet_id,
           url_id (field planet "url" PNone) = Ok planet_id
           /\ planet_dict' = Dict.set planet_dict planet_id (canonical_planet planet)).
Proof.
  destruct planet as [| | | |d]; try discriminate.
  unfold Planets.planet_step, retained, canonical_planet, field, py_get.
  cbn [bind].
  destruct (py_eq_str _ "unknown"); cbn [negb].
  - intros [= <-]. now left.
  - destruct (url_id _) as [planet_id|]; cbn [bind]; [|discriminate].
    intros [= <-]. right. eauto.
Qed.

Lemma planet_step_total planet_dict planet :
  (exists d, planet = PDict d) ->
  (retained planet = true -> exists planet_id, url_id (field planet "url" PNone) = Ok planet_id) ->
  exists planet_dict', Planets.planet_step planet_dict planet = Ok planet_dict'.
Proof.
  intros [d ->] Hurl.
  unfold Planets.planet_step, retained, field, py_get in *. cbn [bind].
  destruct (py_eq_str _ "unknown"); cbn [negb] in *; [eauto|].
  destruct (Hurl eq_refl) as [planet_id ->]. cbn [bind]. eauto.
Qed.

Lemma blank_cases (value : pyval) :
  Planets.blank value
  = if py_eq_str value "unknown" || py_eq_str value "0" then PStr "" else value.
Proof.
  unfold Planets.blank.
  destruct (py_eq_str value "unknown"), (py_eq_str value "0"); reflexivity.
Qed.

(** Every entry of the result is the canonical record of a retained
    planet of the input carrying the entry's id. *)
Lemma planets_entries records planet_dict :
  for_each Planets.planet_step records [] = Ok planet_dict ->
  forall planet_id e,
    In (planet_id, e) planet_dict ->
    exists planet,
      In planet records
      /\ retained planet = true
      /\ url_id (field planet "url" PNone) = Ok planet_id
      /\ e = canonical_planet planet.
Proof.
  apply (@for_each_invariant _ _
           (fun acc : entities =>
              forall planet_id e,
                In (planet_id, e) acc ->
                exists planet,
                  In planet records
                  /\ retained planet = true
                  /\ url_id (field planet "url" PNone) = Ok planet_id
                  /\ e = canonical_planet planet)).
  - intros planet_id e [].
  - intros acc planet acc' Hacc Hin Hstep.
    destruct (planet_step_cases _ _ Hstep) as [[_ ->]|(Hret & pid & Hurl & ->)];
      [exact Hacc|].
    intros planet_id e He. apply in_set in He.
    destruct He as [[= -> ->]|He]; [eauto|now apply Hacc].
Qed.

(** Every retained planet of the input has its id among the keys. *)
Lemma planets_keys records planet_dict planet_dict' :
  for_each Planets.planet_step records planet_dict = Ok planet_dict' ->
  (forall k, In k (Dict.keys planet_dict) -> In k (Dict.keys planet_dict'))
  /\ forall planet,
       In planet records ->
       retained planet = true ->
       exists planet_id,
         url_id (field planet "url" PNone) = Ok planet_id
         /\ In planet_id (Dict.keys planet_dict').
Proof.
  revert planet_dict.
  induction records as [|planet rest IH]; intros planet_dict; simpl.
  - intros [= <-]. split; [auto|intros ? []].
  - destruct (Planets.planet_step planet_dict planet) as [acc|] eqn:Hstep; simpl;
      [|discriminate].
    intros Hrest. destruct (IH _ Hrest) as [Hmono Hall].
    assert (Hacc : forall k, In k (Dict.keys planet_dict) -> In k (Dict.keys acc)).
    { destruct (planet_step_cases _ _ Hstep) as [[_ ->]|(_ & pid & _ & ->)]; [auto|].
      intros k Hk. destruct (keys_set planet_dict pid (canonical_planet planet))
        as [->|[_ ->]]; [assumption|apply in_or_app; now left]. }
    split; [auto|].
    intros p [<-|Hin] Hret; [|now apply Hall].
    destruct (planet_step_cases _ _ Hstep) as [[Hno _]|(_ & pid & Hurl & ->)];
      [congruence|].
    exists pid. split; [exact Hurl|]. apply Hmono.
    apply get_none_notin_inv. rewrite get_set_eq. discriminate.
Qed.

Lemma generate_planet_info_loop json_list :
  Planets.generate_planet_info json_list
  = pages_loop Planets.planet_step json_list [].
Proof. reflexivity. Qed.

(** C8: whenever [generate_planet_info] returns, every entry of the
    result comes from a record of the pages whose name is not "unknown"
    and whose URL carries the entry's id; its name is the record's, and
    each of diameter, rotation_period, orbital_period and population is
    the empty string when the raw value is "unknown" or "0" and the raw
    value itself otherwise; every record not named "unknown" has its id
    among the keys.  It does return when every record is an object and
    every kept record has a URL ending in an id.  A record with
    diameter "unknown" and population "0" gets both blank, and diameter
    "6760" is kept. *)
Theorem generate_planet_info_normalizes :
  forall json_list : list pyval,
    (forall planet_dict : entities,
        Planets.generate_planet_info json_list = Ok planet_dict ->
        exists records : list pyval,
          all_items json_list = Ok records
          /\ (forall planet_id e,
                In (planet_id, e) planet_dict ->
                name_of e <> PStr "unknown"
                /\ exists planet,
                     In planet records
                     /\ url_id (field planet "url" PNone) = Ok planet_id
                     /\ name_of e = field planet "name" (PStr "")
                     /\ forall key,
                          In key ["diameter"; "rotation_period";
                                  "orbital_period"; "population"] ->
                          Dict.get e key
                          = Some (if py_eq_str (field planet key PNone) "unknown"
                                     || py_eq_str (field planet key PNone) "0"
                                  then PStr ""
                                  else field planet key PNone))
          /\ (forall planet,
                In planet records ->
                field planet "name" (PStr "") <> PStr "unknown" ->
                exists planet_id,
                  url_id (field planet "url" PNone) = Ok planet_id
                  /\ In planet_id (Dict.keys planet_dict)))
    /\ (forall records : list pyval,
          all_items json_list = Ok records ->
          (forall planet, In planet records ->
             (exists d, planet = PDict d)
             /\ (retained planet = true ->
                 exists planet_id, url_id (field planet "url" PNone) = Ok planet_id)) ->
          exists planet_dict, Planets.generate_planet_info json_list = Ok planet_dict)
    /\ Planets.generate_planet_info
         [PDict [("results",
                  PList [PDict [("name", PStr "Tatooine");
                                ("url", PStr "https://swapi.dev/api/planets/1/");
                                ("diameter", PStr "unknown");
                                ("population", PStr "0")];
                         PDict [("name", PStr "unknown");
                                ("url", PStr "https://swapi.dev/api/planets/28/")];
                         PDict [("name", PStr "Mars");
                                ("url", PStr "https://swapi.dev/api/planets/4/");
                                ("diameter", PStr "6760");
                                ("population", PStr "1000")]])]]
       = Ok [(1, [("name", PStr "Tatooine"); ("diameter", PStr "");
                  ("rotation_period", PNone); ("orbital_period", PNone);
                  ("population", PStr "")]);
             (4, [("name", PStr "Mars"); ("diameter", PStr "6760");
                  ("rotation_period", PNone); ("orbital_period", PNone);
                  ("population", PStr "1000")])].
Proof.
  intros json_list. split; [|split; [|reflexivity]].
  - intros planet_dict Hrun. rewrite generate_planet_info_loop in Hrun.
    destruct (@pages_loop_items _ _ _ _ _ Hrun) as [records Hrecords].
    rewrite (@pages_loop_flatten _ Planets.planet_step _ _ [] Hrecords) in Hrun.
    exists records. split; [exact Hrecords|]. split.
    + intros planet_id e Hin.
      destruct (@planets_entries _ _ Hrun _ _ Hin) as (planet & Hp & Hret & Hurl & ->).
      assert (Hname : name_of (canonical_planet planet) = field planet "name" (PStr ""))
        by reflexivity.
      split.
      * rewrite Hname. unfold retained in Hret. apply negb_true_iff in Hret.
        now apply py_eq_str_false.
      * exists planet. repeat split; try assumption.
        intros key Hkey. rewrite <- blank_cases.
        cbn [In] in Hkey.
        destruct Hkey as [<-|[<-|[<-|[<-|[]]]]]; reflexivity.
    + intros planet Hp Hname.
      destruct (@planets_keys _ _ _ Hrun) as [_ Hall].
      apply Hall; [exact Hp|].
      unfold retained. apply negb_true_iff. now apply py_eq_str_false.
  - intros records Hrecords Hwf.
    rewrite generate_planet_info_loop, (@pages_loop_flatten _ Planets.planet_step _ _ [] Hrecords).
    apply (@for_each_total _ Planets.planet_step
             (fun planet =>
                (exists d, planet = PDict d)
                /\ (retained planet = true ->
                    exists planet_id, url_id (field planet "url" PNone) = Ok planet_id))).
    + intros acc planet [Hd Hurl]. now apply planet_step_total.
    + apply Forall_forall. exact Hwf.
Qed.

(** ** [Characters.get_characters_info] *)

Lemma py_eq_str_empty_cases (v : pyval) :
  (py_eq_str v "" = true /\ v = PStr "") \/ (py_eq_str v "" = false /\ v <> PStr "").
Proof.
  destruct (py_eq_str v "") eqn:E.
  - left. split; [reflexivity|now apply py_eq_str_true].
  - right. split; [reflexivity|now apply py_eq_str_false].
Qed.

Lemma character_step_cases characters_dict planet_id character characters_dict' planet_id' :
  Characters.character_step (characters_dict, planet_id) character
  = Ok (characters_dict', planet_id') ->
  (retained character = false
   /\ characters_dict' = characters_dict /\ planet_id' = planet_id)
  \/ (retained character = true
      /\ exists character_id,
           url_id (field character "url" PNone) = Ok character_id
           /\ ((homeworld character <> PStr ""
                /\ exists p, url_id (homeworld character) = Ok p /\ planet_id' = PInt p)
               \/ (homeworld character = PStr "" /\ planet_id' = planet_id))
           /\ characters_dict'
              = Dict.set characters_dict character_id
                  [("name", field character "name" (PStr "")); ("planet", planet_id')]).
Proof.
  destruct character as [| | | |d]; try discriminate.
  unfold Characters.character_step, retained, homeworld, field, py_get.
  cbn [bind].
  destruct (py_eq_str _ "unknown"); cbn [negb].
  - intros [= <- <-]. now left.
  - destruct (url_id _) as [character_id|]; cbn [bind]; [|discriminate].
    destruct (py_eq_str_empty_cases
                match Dict.get d "homeworld" with Some x => x | None => PStr "" end)
      as [[-> Hempty]|[-> Hpresent]]; cbn [negb bind].
    + intros [= <- <-]. right. split; [reflexivity|].
      exists character_id. split; [reflexivity|]. split; [right; now split|reflexivity].
    + destruct (url_id _) as [p|]; cbn [bind]; [|discriminate].
      intros [= <- <-]. right. split; [reflexivity|].
      exists character_id. split; [reflexivity|]. split; [left; eauto|reflexivity].
Qed.

Lemma character_step_total st character :
  (exists d, character = PDict d) ->
  (retained character = true ->
   (exists character_id, url_id (field character "url" PNone) = Ok character_id)
   /\ (homeworld character <> PStr "" -> exists p, url_id (homeworld character) = Ok p)) ->
  exists st', Characters.character_step st character = Ok st'.
Proof.
  intros [d ->] Hwf. destruct st as [characters_dict planet_id].
  unfold Characters.character_step, retained, homeworld, field, py_get in *.
  cbn [bind].
  destruct (py_eq_str _ "unknown"); cbn [negb] in *; [eauto|].
  destruct (Hwf eq_refl) as [[character_id ->] Hhome]. cbn [bind].
  destruct (py_eq_str_empty_cases
              match Dict.get d "homeworld" with Some x => x | None => PStr "" end)
    as [[-> _]|[-> Hpresent]]; cbn [negb bind]; [eauto|].
  destruct (Hhome Hpresent) as [p ->]. cbn [bind]. eauto.
Qed.

(** The value of [planet_id] after a run of records: the reference of
    the last kept record that had one, or the value before the run. *)
Lemma characters_carry (pre : list pyval) (st st' : Characters.state) :
  for_each Characters.character_step pre st = Ok st' ->
  (exists pre1 c0 pre2 p0,
      pre = pre1 ++ c0 :: pre2
      /\ retained c0 = true
      /\ homeworld c0 <> PStr ""
      /\ url_id (homeworld c0) = Ok p0
      /\ (forall c, In c pre2 -> retained c = true -> homeworld c = PStr "")
      /\ snd st' = PInt p0)
  \/ ((forall c, In c pre -> retained c = true -> homeworld c = PStr "")
      /\ snd st' = snd st).
Proof.
  revert st. induction pre as [|c r IH]; intros st; simpl.
  - intros [= <-]. right. split; [intros ? []|reflexivity].
  - destruct (Characters.character_step st c) as [st1|] eqn:Hstep; simpl; [|discriminate].
    intros Hrest.
    destruct (IH _ Hrest) as [(pre1 & c0 & pre2 & p0 & -> & H0 & H1 & H2 & H3 & H4)|[Hnone Hsame]].
    + left. exists (c :: pre1), c0, pre2, p0. repeat split; assumption.
    + destruct st as [d pid], st1 as [d1 pid1].
      destruct (character_step_cases _ _ _ Hstep)
        as [(Hno & _ & ->)|(Hret & cid & _ & [(Hpresent & p & Hp & ->)|[Habsent ->]] & _)].
      * right. split; [|exact Hsame].
        intros c' [<-|Hin] Hc'; [congruence|now apply Hnone].
      * left. exists [], c, r, p. repeat split; assumption.
      * right. split; [|exact Hsame].
        intros c' [<-|Hin] Hc'; [exact Habsent|now apply Hnone].
Qed.

(** Records that do not carry the id [character_id] leave its entry as
    it is. *)
Lemma characters_overwrite (post : list pyval) (st st' : Characters.state)
    (character_id : Z) :
  for_each Characters.character_step post st = Ok st' ->
  (forall c, In c post -> retained c = true ->
             url_id (field c "url" PNone) <> Ok character_id) ->
  Dict.get (fst st') character_id = Dict.get (fst st) character_id.
Proof.
  revert st. induction post as [|c r IH]; intros st; simpl.
  - now intros [= <-].
  - destruct (Characters.character_step st c) as [st1|] eqn:Hstep; simpl; [|discriminate].
    intros Hrest Hother. rewrite (IH _ Hrest) by (intros c' Hin; apply Hother; now right).
    destruct st as [d pid], st1 as [d1 pid1].
    destruct (character_step_cases _ _ _ Hstep)
      as [(_ & -> & _)|(Hret & cid & Hurl & _ & ->)]; [reflexivity|].
    cbn [fst]. apply get_set_neq. intros ->.
    apply (Hother c); [now left|exact Hret|exact Hurl].
Qed.

(** Every entry of the result bears the name of a kept record carrying
    its id. *)
Lemma characters_entries (records : list pyval) (st' : Characters.state) :
  for_each Characters.character_step records ([], PStr "") = Ok st' ->
  forall character_id e,
    In (character_id, e) (fst st') ->
    exists character,
      In character records
      /\ retained character = true
      /\ url_id (field character "url" PNone) = Ok character_id
      /\ name_of e = field character "name" (PStr "").
Proof.
  apply (@for_each_invariant _ _
           (fun st : Characters.state =>
              forall character_id e,
                In (character_id, e) (fst st) ->
                exists character,
                  In character records
                  /\ retained character = true
                  /\ url_id (field character "url" PNone) = Ok character_id
                  /\ name_of e = field character "name" (PStr ""))).
  - intros character_id e [].
  - intros [d pid] c [d1 pid1] Hacc Hin Hstep.
    destruct (character_step_cases _ _ _ Hstep)
      as [(_ & -> & _)|(Hret & cid & Hurl & _ & ->)]; [exact Hacc|].
    intros character_id e He. cbn [fst] in He. apply in_set in He.
    destruct He as [[= -> ->]|He]; [|now apply Hacc].
    exists c. repeat split; assumption.
Qed.

Lemma get_characters_info_loop json_list :
  Characters.get_characters_info json_list
  = (st <- pages_loop Characters.character_step json_list ([], PStr "") ;; Ok (fst st)).
Proof. reflexivity. Qed.

(** C4: whenever [get_characters_info] returns, its entries come from
    the records not named "unknown" (the others are skipped), and for
    every such record, found after the records [pre] and before the
    records [post] in page order: its URL carries an id; the planet it
    is given is the id parsed from its homeworld URL when it has one,
    and otherwise the id parsed from the homeworld of the last kept
    record before it that had one ("" when there is none); and when no
    kept record of [post] carries the same id, the result maps the id to
    exactly the record's name and that planet, so a later duplicate
    overwrites an earlier one.  A URL ending in [/<n>/] parses to [n].
    The call returns when every record is an object whose URLs end in an
    id. *)
Theorem get_characters_info_normalizes :
  forall json_list : list pyval,
    (forall characters_dict : entities,
        Characters.get_characters_info json_list = Ok characters_dict ->
        exists records : list pyval,
          all_items json_list = Ok records
          /\ (forall character_id e,
                In (character_id, e) characters_dict ->
                exists character,
                  In character records
                  /\ retained character = true
                  /\ url_id (field character "url" PNone) = Ok character_id
                  /\ name_of e = field character "name" (PStr ""))
          /\ (forall pre character post,
                records = pre ++ character :: post ->
                retained character = true ->
                exists character_id planet,
                  url_id (field character "url" PNone) = Ok character_id
                  /\ (homeworld character <> PStr "" ->
                      exists p, url_id (homeworld character) = Ok p /\ planet = PInt p)
                  /\ (homeworld character = PStr "" ->
                      (exists pre1 c0 pre2 p0,
                          pre = pre1 ++ c0 :: pre2
                          /\ retained c0 = true
                          /\ homeworld c0 <> PStr ""
                          /\ url_id (homeworld c0) = Ok p0
                          /\ (forall c, In c pre2 -> retained c = true ->
                                        homeworld c = PStr "")
                          /\ planet = PInt p0)
                      \/ ((forall c, In c pre -> retained c = true ->
                                     homeworld c = PStr "")
                          /\ planet = PStr ""))
                  /\ ((forall c, In c post -> retained c = true ->
                                 url_id (field c "url" PNone) <> Ok character_id) ->
                      Dict.get characters_dict character_id
                      = Some [("name", field character "name" (PStr ""));
                              ("planet", planet)])))
    /\ (forall records : list pyval,
          all_items json_list = Ok records ->
          (forall character, In character records ->
             (exists d, character = PDict d)
             /\ (retained character = true ->
                 (exists character_id,
                     url_id (field character "url" PNone) = Ok character_id)
                 /\ (homeworld character <> PStr "" ->
                     exists p, url_id (homeworld character) = Ok p))) ->
          exists characters_dict,
            Characters.get_characters_info json_list = Ok characters_dict)
    /\ (forall (prefix : string) (n : Z),
          0 <= n ->
          url_id (PStr (prefix ++ "/" ++ py_str_int n ++ "/")%string) = Ok n)
    /\ Characters.get_characters_info
         [PDict [("results",
                  PList [PDict [("name", PStr "Luke Skywalker");
                                ("url", PStr "https://swapi.dev/api/people/1/");
                                ("homeworld", PStr "https://swapi.dev/api/planets/5/")];
                         PDict [("name", PStr "unknown");
                                ("url", PStr "https://swapi.dev/api/people/9/");
                                ("homeworld", PStr "https://swapi.dev/api/planets/8/")];
                         PDict [("name", PStr "C-3PO");
                                ("url", PStr "https://swapi.dev/api/people/2/")]])];
          PDict [("results",
                  PList [PDict [("name", PStr "Luke S.");
                                ("url", PStr "https://swapi.dev/api/people/1/")]])]]
       = Ok [(1, [("name", PStr "Luke S."); ("planet", PInt 5)]);
             (2, [("name", PStr "C-3PO"); ("planet", PInt 5)])].
Proof.
  intros json_list. split; [|split; [|split; [exact url_id_trailing_segment|reflexivity]]].
  - intros characters_dict Hrun. rewrite get_characters_info_loop in Hrun.
    destruct (pages_loop Characters.character_step json_list ([], PStr ""))
      as [[d pidf]|] eqn:Hloop; cbn [bind fst] in Hrun; [|discriminate].
    injection Hrun as <-.
    destruct (@pages_loop_items _ _ _ _ _ Hloop) as [records Hrecords].
    rewrite (@pages_loop_flatten _ Characters.character_step _ _ ([], PStr "") Hrecords)
      in Hloop.
    exists records. split; [exact Hrecords|]. split.
    + intros character_id e Hin.
      exact (@characters_entries records (d, pidf) Hloop character_id e Hin).
    + intros pre character post -> Hret.
      apply for_each_app_ok in Hloop. destruct Hloop as ([d1 pid1] & Hpre & Hloop).
      cbn [for_each] in Hloop.
      destruct (Characters.character_step (d1, pid1) character) as [[d2 pid2]|] eqn:Hstep;
        cbn [bind] in Hloop; [|discriminate].
      destruct (character_step_cases _ _ _ Hstep)
        as [(Hno & _)|(_ & cid & Hurl & Hhome & ->)]; [congruence|].
      exists cid, pid2. split; [exact Hurl|].
      split; [|split].
      * intros Hpresent. destruct Hhome as [(_ & p & Hp & ->)|[Habsent _]];
          [eauto|contradiction].
      * intros Habsent. destruct Hhome as [(Hpresent & _)|[_ ->]]; [contradiction|].
        destruct (characters_carry _ _ Hpre)
          as [(pre1 & c0 & pre2 & p0 & -> & H0 & H1 & H2 & H3 & H4)|[Hnone Hsame]].
        -- left. exists pre1, c0, pre2, p0. cbn [snd] in H4. repeat split; assumption.
        -- right. cbn [snd] in Hsame. split; assumption.
      * intros Hlast.
        pose proof (@characters_overwrite post _ (d, pidf) cid Hloop Hlast) as Hkeep.
        cbn [fst] in Hkeep. rewrite Hkeep. apply get_set_eq.
  - intros records Hrecords Hwf.
    rewrite get_characters_info_loop.
    rewrite (@pages_loop_flatten _ Characters.character_step _ _ ([], PStr "") Hrecords).
    destruct (@for_each_total _ Characters.character_step
                (fun character =>
                   (exists d, character = PDict d)
                   /\ (retained character = true ->
                       (exists character_id,
                           url_id (field character "url" PNone) = Ok character_id)
                       /\ (homeworld character <> PStr "" ->
                           exists p, url_id (homeworld character) = Ok p)))
                records ([], PStr "")) as [st' Hst].
    + intros st character [Hd Hurl]. now apply character_step_total.
    + apply Forall_forall. exact Hwf.
    + rewrite Hst. cbn [bind]. eauto.
Qed.


(** * Further properties of the code *)

(** ** Resource URLs *)

Lemma py_int_empty : py_int "" = Raise ValueError.
Proof. reflexivity. Qed.

(** X1: the id expression never looks at the last character of the URL:
    whatever character follows the digits of [n] after the last slash,
    the id is [n].  So a URL that lacks its final slash loses its last
    digit. *)
Theorem url_id_last_character_ignored :
  forall (prefix : string) (n : Z) (c : ascii),
    0 <= n ->
    url_id (PStr (prefix ++ "/" ++ py_str_int n ++ String c "")%string) = Ok n.
Proof.
  intros prefix n c Hn. unfold url_id, str_slice, str_rfind.
  rewrite !list_ascii_of_string_app. cbn [list_ascii_of_string].
  set (P := list_ascii_of_string prefix).
  set (D := list_ascii_of_string (py_str_int n)).
  assert (Hslash : ~ In "/"%char D).
  { intros Hin. pose proof (py_str_int_digits Hn) as Hd.
    rewrite Forall_forall in Hd. specialize (Hd _ Hin). discriminate. }
  change (P ++ ["/"%char] ++ D ++ [c]) with (P ++ "/"%char :: D ++ [c]).
  replace (P ++ "/"%char :: D ++ [c]) with ((P ++ "/"%char :: D) ++ [c])
    by (rewrite <- app_assoc; reflexivity).
  rewrite py_slice_drop_last, list_ascii_of_string_of_list_ascii.
  rewrite (@rfind_from_last _ P _ Hslash).
  replace ((P ++ "/"%char :: D) ++ [c]) with ((P ++ ["/"%char]) ++ D ++ [c])
    by (rewrite <- !app_assoc; reflexivity).
  replace (Z.of_nat (List.length P) + 1) with (Z.of_nat (List.length (P ++ ["/"%char])))
    by (rewrite length_app; cbn [List.length]; lia).
  rewrite py_slice_middle. subst D.
  rewrite string_of_list_ascii_of_string. now apply py_int_str.
Qed.

Lemma url_id_last_character_ignored_witness :
  0 <= 12
  /\ url_id (PStr "https://swapi.dev/api/planets/12/") = Ok 12
  /\ url_id (PStr "https://swapi.dev/api/planets/123") = Ok 12.
Proof.
  split; [lia|]. split.
  - apply (@url_id_last_character_ignored "https://swapi.dev/api/planets" 12 "/"). lia.
  - apply (@url_id_last_character_ignored "https://swapi.dev/api/planets" 12 "3"). lia.
Defined.

(** X2: a URL whose last but one character is a slash has an empty id
    segment, and the id expression raises [ValueError]; so does the
    empty URL. *)
Theorem url_id_empty_segment :
  forall (prefix : string) (c : ascii),
    url_id (PStr (prefix ++ "/" ++ String c "")%string) = Raise ValueError
    /\ url_id (PStr "") = Raise ValueError.
Proof.
  intros prefix c. split; [|reflexivity].
  unfold url_id, str_slice, str_rfind.
  rewrite !list_ascii_of_string_app. cbn [list_ascii_of_string].
  set (P := list_ascii_of_string prefix).
  assert (Hbody : py_slice (P ++ ["/"%char] ++ [c]) None (Some (-1)) = P ++ ["/"%char]).
  { rewrite app_assoc. apply py_slice_drop_last. }
  assert (Hsegment : py_slice (P ++ ["/"%char] ++ [c])
                       (Some (Z.of_nat (List.length P) + 1)) (Some (-1)) = []).
  { rewrite app_assoc.
    replace (Z.of_nat (List.length P) + 1) with (Z.of_nat (List.length (P ++ ["/"%char])))
      by (rewrite length_app; cbn [List.length]; lia).
    apply (py_slice_middle (P ++ ["/"%char]) [] c). }
  rewrite Hbody, list_ascii_of_string_of_list_ascii.
  rewrite (@rfind_from_last "/"%char P [] (fun H => H)).
  rewrite Hsegment. reflexivity.
Qed.

(** ** The normalisers beyond the kept records *)

Lemma retained_false_dict record :
  retained record = false ->
  exists d, record = PDict d
            /\ py_eq_str (match Dict.get d "name" with Some v => v | None => PStr "" end)
                         "unknown" = true.
Proof.
  unfold retained, field. intros Hret. apply negb_false_iff in Hret.
  destruct record as [| | | |d]; try discriminate. eauto.
Qed.

Lemma planet_step_skipped planet_dict planet :
  retained planet = false -> Planets.planet_step planet_dict planet = Ok planet_dict.
Proof.
  intros Hret. destruct (retained_false_dict _ Hret) as (d & -> & Hname).
  unfold Planets.planet_step, py_get. cbn [bind]. now rewrite Hname.
Qed.

Lemma character_step_skipped st character :
  retained character = false -> Characters.character_step st character = Ok st.
Proof.
  intros Hret. destruct (retained_false_dict _ Hret) as (d & -> & Hname).
  destruct st as [characters_dict planet_id].
  unfold Characters.character_step, py_get. cbn [bind]. now rewrite Hname.
Qed.

Lemma for_each_filter {S A : Type} (body : S -> A -> outcome S) (keep : A -> bool)
    (l : list A) (s : S) :
  (forall s0 x, keep x = false -> body s0 x = Ok s0) ->
  for_each body l s = for_each body (filter keep l) s.
Proof.
  intros Hskip. revert s. induction l as [|x r IH]; intros s; [reflexivity|].
  cbn [for_each filter]. destruct (keep x) eqn:Hk.
  - cbn [for_each]. destruct (body s x); cbn [bind]; [apply IH|reflexivity].
  - rewrite (Hskip s x Hk). cbn [bind]. apply IH.
Qed.

(** X3: both normalisers depend only on the sequence of records not
    named "unknown": two page sequences with the same kept records in
    the same order give the same outcome, however the records are split
    into pages and whatever the records named "unknown" hold (they are
    dropped before their URL is read). *)
Theorem normalizers_depend_on_kept_records :
  forall (json_list json_list' records records' : list pyval),
    all_items json_list = Ok records ->
    all_items json_list' = Ok records' ->
    filter retained records = filter retained records' ->
    Planets.generate_planet_info json_list = Planets.generate_planet_info json_list'
    /\ Characters.get_characters_info json_list
       = Characters.get_characters_info json_list'.
Proof.
  intros json_list json_list' records records' Hr Hr' Hkept. split.
  - rewrite !generate_planet_info_loop.
    rewrite (@pages_loop_flatten _ Planets.planet_step _ _ [] Hr).
    rewrite (@pages_loop_flatten _ Planets.planet_step _ _ [] Hr').
    rewrite (for_each_filter Planets.planet_step retained records),
      (for_each_filter Planets.planet_step retained records'), Hkept;
      [reflexivity|intros; now apply planet_step_skipped..].
  - rewrite !get_characters_info_loop.
    rewrite (@pages_loop_flatten _ Characters.character_step _ _ ([], PStr "") Hr).
    rewrite (@pages_loop_flatten _ Characters.character_step _ _ ([], PStr "") Hr').
    rewrite (for_each_filter Characters.character_step retained records),
      (for_each_filter Characters.character_step retained records'), Hkept;
      [reflexivity|intros; now apply character_step_skipped..].
Qed.

Lemma normalizers_depend_on_kept_records_witness :
  Planets.generate_planet_info
    [PDict [("results",
             PList [PDict [("name", PStr "Tatooine");
                           ("url", PStr "https://swapi.dev/api/planets/1/")];
                    PDict [("name", PStr "unknown"); ("url", PNone)]])];
     PDict [("count", PInt 3)];
     PDict [("results",
             PList [PDict [("name", PStr "Alderaan");
                           ("url", PStr "https://swapi.dev/api/planets/2/")]])]]
  = Planets.generate_planet_info
      [PDict [("results",
               PList [PDict [("name", PStr "Tatooine");
                             ("url", PStr "https://swapi.dev/api/planets/1/")];
                      PDict [("name", PStr "Alderaan");
                             ("url", PStr "https://swapi.dev/api/planets/2/")]])]].
Proof.
  eapply (fun r r' H1 H2 H3 =>
            proj1 (@normalizers_depend_on_kept_records _ _ r r' H1 H2 H3));
    reflexivity.
Defined.

Lemma for_each_ok_inv {S A : Type} (body : S -> A -> outcome S) (l : list A) (s s' : S) :
  for_each body l s = Ok s' ->
  forall x, In x l -> exists s0 s1, body s0 x = Ok s1.
Proof.
  revert s. induction l as [|y r IH]; intros s; simpl; [intros _ ? []|].
  destruct (body s y) as [s1|] eqn:Hb; simpl; [|discriminate].
  intros Hrest x [<-|Hin]; [eauto|now apply (IH _ Hrest)].
Qed.

(** X4: [generate_planet_info] returns exactly on the page sequences
    whose pages are objects with iterable results, whose records are all
    objects, and whose kept records all have a URL that ends in an id;
    one record outside these makes the whole call raise, with no partial
    result. *)
Theorem generate_planet_info_returns_iff :
  forall json_list : list pyval,
    (exists planet_dict, Planets.generate_planet_info json_list = Ok planet_dict)
    <-> exists records,
          all_items json_list = Ok records
          /\ forall planet, In planet records ->
               (exists d, planet = PDict d)
               /\ (retained planet = true ->
                   exists planet_id, url_id (field planet "url" PNone) = Ok planet_id).
Proof.
  intros json_list. split.
  - intros [planet_dict Hrun]. rewrite generate_planet_info_loop in Hrun.
    destruct (@pages_loop_items _ _ _ _ _ Hrun) as [records Hrecords].
    rewrite (@pages_loop_flatten _ Planets.planet_step _ _ [] Hrecords) in Hrun.
    exists records. split; [exact Hrecords|].
    intros planet Hin.
    destruct (for_each_ok_inv _ _ _ Hrun planet Hin) as (acc & acc' & Hstep).
    split.
    + destruct planet; try discriminate. eauto.
    + intros Hret.
      destruct (planet_step_cases _ _ Hstep) as [[Hno _]|(_ & pid & Hurl & _)];
        [congruence|eauto].
  - intros (records & Hrecords & Hwf).
    rewrite generate_planet_info_loop,
      (@pages_loop_flatten _ Planets.planet_step _ _ [] Hrecords).
    apply (@for_each_total _ Planets.planet_step
             (fun planet =>
                (exists d, planet = PDict d)
                /\ (retained planet = true ->
                    exists planet_id, url_id (field planet "url" PNone) = Ok planet_id))).
    + intros acc planet [Hd Hurl]. now apply planet_step_total.
    + apply Forall_forall. exact Hwf.
Qed.

(** X5: [get_characters_info] returns exactly on the page sequences
    whose pages are objects with iterable results, whose records are all
    objects, and whose kept records all have a URL ending in an id and a
    homeworld that is absent, empty or a URL ending in an id; a kept
    record with a null homeworld makes the whole call raise. *)
Theorem get_characters_info_returns_iff :
  forall json_list : list pyval,
    ((exists characters_dict,
         Characters.get_characters_info json_list = Ok characters_dict)
     <-> exists records,
           all_items json_list = Ok records
           /\ forall character, In character records ->
                (exists d, character = PDict d)
                /\ (retained character = true ->
                    (exists character_id,
                        url_id (field character "url" PNone) = Ok character_id)
                    /\ (homeworld character <> PStr "" ->
                        exists p, url_id (homeworld character) = Ok p)))
    /\ forall records d,
         all_items json_list = Ok records ->
         In (PDict d) records ->
         retained (PDict d) = true ->
         Dict.get d "homeworld" = Some PNone ->
         exists e, Characters.get_characters_info json_list = Raise e.
Proof.
  intros json_list.
  assert (Hiff : (exists characters_dict,
                     Characters.get_characters_info json_list = Ok characters_dict)
                 <-> exists records,
                       all_items json_list = Ok records
                       /\ forall character, In character records ->
                            (exists d, character = PDict d)
                            /\ (retained character = true ->
                                (exists character_id,
                                    url_id (field character "url" PNone) = Ok character_id)
                                /\ (homeworld character <> PStr "" ->
                                    exists p, url_id (homeworld character) = Ok p))).
  { split.
    - intros [characters_dict Hrun]. rewrite get_characters_info_loop in Hrun.
      destruct (pages_loop Characters.character_step json_list ([], PStr ""))
        as [st|] eqn:Hloop; cbn [bind] in Hrun; [|discriminate].
      destruct (@pages_loop_items _ _ _ _ _ Hloop) as [records Hrecords].
      rewrite (@pages_loop_flatten _ Characters.character_step _ _ ([], PStr "") Hrecords)
        in Hloop.
      exists records. split; [exact Hrecords|].
      intros character Hin.
      destruct (for_each_ok_inv _ _ _ Hloop character Hin) as ([d0 p0] & [d1 p1] & Hstep).
      split.
      + destruct character; try discriminate. eauto.
      + intros Hret.
        destruct (character_step_cases _ _ _ Hstep)
          as [(Hno & _)|(_ & cid & Hurl & Hhome & _)]; [congruence|].
        split; [eauto|].
        intros Hpresent. destruct Hhome as [(_ & p & Hp & _)|[Habsent _]];
          [eauto|contradiction].
    - intros (records & Hrecords & Hwf).
      rewrite get_characters_info_loop,
        (@pages_loop_flatten _ Characters.character_step _ _ ([], PStr "") Hrecords).
      destruct (@for_each_total _ Characters.character_step
                  (fun character =>
                     (exists d, character = PDict d)
                     /\ (retained character = true ->
                         (exists character_id,
                             url_id (field character "url" PNone) = Ok character_id)
                         /\ (homeworld character <> PStr "" ->
                             exists p, url_id (homeworld character) = Ok p)))
                  records ([], PStr "")) as [st' Hst].
      + intros st character [Hd Hurl]. now apply character_step_total.
      + apply Forall_forall. exact Hwf.
      + rewrite Hst. cbn [bind]. eauto. }
  split; [exact Hiff|].
  intros records0 d Hrecords0 Hin Hret Hnull.
  destruct (Characters.get_characters_info json_list) as [characters_dict|e] eqn:Hrun;
    [|eauto].
  exfalso. destruct (proj1 Hiff (ex_intro _ _ eq_refl)) as (records & Hrecords & Hwf).
  rewrite Hrecords0 in Hrecords. injection Hrecords as <-.
  destruct (Hwf _ Hin) as [_ Hok]. destruct (Hok Hret) as [_ Hhome].
  assert (Hh : homeworld (PDict d) = PNone).
  { unfold homeworld, field. now rewrite Hnull. }
  rewrite Hh in Hhome. destruct Hhome as [p Hp]; discriminate.
Qed.

Lemma planets_overwrite (post : list pyval) (planet_dict planet_dict' : entities)
    (planet_id : Z) :
  for_each Planets.planet_step post planet_dict = Ok planet_dict' ->
  (forall p, In p post -> retained p = true ->
             url_id (field p "url" PNone) <> Ok planet_id) ->
  Dict.get planet_dict' planet_id = Dict.get planet_dict planet_id.
Proof.
  revert planet_dict. induction post as [|p r IH]; intros planet_dict; simpl.
  - now intros [= <-].
  - destruct (Planets.planet_step planet_dict p) as [acc|] eqn:Hstep; simpl; [|discriminate].
    intros Hrest Hother. rewrite (IH _ Hrest) by (intros q Hin; apply Hother; now right).
    destruct (planet_step_cases _ _ Hstep) as [[_ ->]|(Hret & pid & Hurl & ->)];
      [reflexivity|].
    apply get_set_neq. intros ->. apply (Hother p); [now left|exact Hret|exact Hurl].
Qed.

(** X6: when several planet records carry the same id, the result holds
    the canonical record of the last of them in page order (records
    named "unknown" do not count). *)
Theorem generate_planet_info_last_wins :
  forall (json_list records pre post : list pyval) (planet : pyval)
         (planet_dict : entities) (planet_id : Z),
    Planets.generate_planet_info json_list = Ok planet_dict ->
    all_items json_list = Ok records ->
    records = pre ++ planet :: post ->
    retained planet = true ->
    url_id (field planet "url" PNone) = Ok planet_id ->
    (forall p, In p post -> retained p = true ->
               url_id (field p "url" PNone) <> Ok planet_id) ->
    Dict.get planet_dict planet_id
    = Some [("name", field planet "name" (PStr ""));
            ("diameter", Planets.blank (field planet "diameter" PNone));
            ("rotation_period", Planets.blank (field planet "rotation_period" PNone));
            ("orbital_period", Planets.blank (field planet "orbital_period" PNone));
            ("population", Planets.blank (field planet "population" PNone))].
Proof.
  intros json_list records pre post planet planet_dict planet_id
         Hrun Hrecords -> Hret Hurl Hlast.
  rewrite generate_planet_info_loop in Hrun.
  rewrite (@pages_loop_flatten _ Planets.planet_step _ _ [] Hrecords) in Hrun.
  apply for_each_app_ok in Hrun. destruct Hrun as (acc & Hpre & Hrun).
  cbn [for_each] in Hrun.
  destruct (Planets.planet_step acc planet) as [acc'|] eqn:Hstep;
    cbn [bind] in Hrun; [|discriminate].
  rewrite (planets_overwrite _ _ Hrun Hlast).
  destruct (planet_step_cases _ _ Hstep) as [[Hno _]|(_ & pid & Hurl' & ->)];
    [congruence|].
  rewrite Hurl in Hurl'. injection Hurl' as <-. apply get_set_eq.
Qed.

Lemma generate_planet_info_last_wins_witness :
  exists planet_dict,
    Planets.generate_planet_info
      [PDict [("results",
               PList [PDict [("name", PStr "Tatooine");
                             ("url", PStr "https://swapi.dev/api/planets/1/");
                             ("diameter", PStr "10465")]])];
       PDict [("results",
               PList [PDict [("name", PStr "Tatooine II");
                             ("url", PStr "https://swapi.dev/api/planets/1/");
                             ("diameter", PStr "0")]])]]
    = Ok planet_dict
    /\ Dict.get planet_dict 1
       = Some [("name", PStr "Tatooine II"); ("diameter", PStr "");
               ("rotation_period", PNone); ("orbital_period", PNone);
               ("population", PNone)].
Proof.
  eexists. split; [reflexivity|].
  apply (@generate_planet_info_last_wins
           [PDict [("results",
                    PList [PDict [("name", PStr "Tatooine");
                                  ("url", PStr "https://swapi.dev/api/planets/1/");
                                  ("diameter", PStr "10465")]])];
            PDict [("results",
                    PList [PDict [("name", PStr "Tatooine II");
                                  ("url", PStr "https://swapi.dev/api/planets/1/");
                                  ("diameter", PStr "0")]])]]
           _
           [PDict [("name", PStr "Tatooine");
                   ("url", PStr "https://swapi.dev/api/planets/1/");
                   ("diameter", PStr "10465")]]
           []
           (PDict [("name", PStr "Tatooine II");
                   ("url", PStr "https://swapi.dev/api/planets/1/");
                   ("diameter", PStr "0")])
           _ 1 eq_refl eq_refl eq_refl eq_refl eq_refl).
  intros p [].
Defined.

(** X7: what the normalisers hand on.  Every planet entity has the five
    fields name, diameter, rotation_period, orbital_period, population,
    in this order; every character entity has exactly a name and a
    planet, the planet being an integer or the empty string; the keys of
    both dictionaries are distinct.  So the name looked up by the upload
    log line is always there and the planet is always hashable. *)
Theorem normalizers_shape :
  forall json_list : list pyval,
    (forall planet_dict,
        Planets.generate_planet_info json_list = Ok planet_dict ->
        NoDup (Dict.keys planet_dict)
        /\ forall planet_id e,
             In (planet_id, e) planet_dict ->
             Dict.keys e = ["name"; "diameter"; "rotation_period";
                            "orbital_period"; "population"])
    /\ (forall characters_dict,
          Characters.get_characters_info json_list = Ok characters_dict ->
          NoDup (Dict.keys characters_dict)
          /\ forall character_id e,
               In (character_id, e) characters_dict ->
               exists name planet,
                 e = [("name", name); ("planet", planet)]
                 /\ (planet = PStr "" \/ exists p, planet = PInt p)).
Proof.
  intros json_list. split.
  - intros planet_dict Hrun. rewrite generate_planet_info_loop in Hrun.
    destruct (@pages_loop_items _ _ _ _ _ Hrun) as [records Hrecords].
    rewrite (@pages_loop_flatten _ Planets.planet_step _ _ [] Hrecords) in Hrun.
    split.
    + revert Hrun.
      apply (@for_each_invariant _ _ (fun acc : entities => NoDup (Dict.keys acc))).
      * constructor.
      * intros acc planet acc' Hacc _ Hstep.
        destruct (planet_step_cases _ _ Hstep) as [[_ ->]|(_ & pid & _ & ->)];
          [exact Hacc|now apply wf_set].
    + intros planet_id e Hin.
      destruct (@planets_entries _ _ Hrun _ _ Hin) as (planet & _ & _ & _ & ->).
      reflexivity.
  - intros characters_dict Hrun. rewrite get_characters_info_loop in Hrun.
    destruct (pages_loop Characters.character_step json_list ([], PStr ""))
      as [st|] eqn:Hloop; cbn [bind] in Hrun; [|discriminate].
    injection Hrun as <-.
    destruct (@pages_loop_items _ _ _ _ _ Hloop) as [records Hrecords].
    rewrite (@pages_loop_flatten _ Characters.character_step _ _ ([], PStr "") Hrecords)
      in Hloop.
    revert Hloop.
    enough (Hinv : for_each Characters.character_step records ([], PStr "") = Ok st ->
                   (NoDup (Dict.keys (fst st))
                    /\ (snd st = PStr "" \/ exists p, snd st = PInt p)
                    /\ forall character_id e,
                         In (character_id, e) (fst st) ->
                         exists name planet,
                           e = [("name", name); ("planet", planet)]
                           /\ (planet = PStr "" \/ exists p, planet = PInt p)))
      by (intros Hloop; destruct (Hinv Hloop) as (H1 & _ & H3); now split).
    apply (@for_each_invariant _ _
             (fun st : Characters.state =>
                NoDup (Dict.keys (fst st))
                /\ (snd st = PStr "" \/ exists p, snd st = PInt p)
                /\ forall character_id e,
                     In (character_id, e) (fst st) ->
                     exists name planet,
                       e = [("name", name); ("planet", planet)]
                       /\ (planet = PStr "" \/ exists p, planet = PInt p))).
    + split; [constructor|]. split; [now left|intros ? ? []].
    + intros [d pid] c [d1 pid1] (Hnd & Hpid & Hall) _ Hstep. cbn [fst snd] in *.
      destruct (character_step_cases _ _ _ Hstep)
        as [(_ & -> & ->)|(_ & cid & _ & Hhome & ->)];
        [exact (conj Hnd (conj Hpid Hall))|].
      assert (Hpid1 : pid1 = PStr "" \/ exists p, pid1 = PInt p).
      { destruct Hhome as [(_ & p & _ & ->)|[_ ->]]; [right; eauto|exact Hpid]. }
      split; [now apply wf_set|]. split; [exact Hpid1|].
      intros character_id e He. apply in_set in He.
      destruct He as [[= -> ->]|He]; [eauto|exact (Hall _ _ He)].
Qed.

(** ** Reconciliation beyond the per-candidate view *)

Lemma matched_ids_keys result entity_dict :
  Dict.keys (matched_ids result entity_dict)
  = Dict.keys (filter (fun kv => name_exists result (name_of (snd kv))) entity_dict).
Proof.
  unfold matched_ids, Dict.keys.
  induction entity_dict as [|[k e] rest IH]; [reflexivity|].
  cbn [flat_map filter fst snd].
  pose proof (first_id_named_exists result (name_of e)) as Hex.
  destruct (first_id_named result (name_of e)) as [t|].
  - rewrite (proj1 Hex) by discriminate. cbn [app map fst]. now rewrite IH.
  - destruct (name_exists result (name_of e)).
    + exfalso. now apply (proj2 Hex).
    + exact IH.
Qed.

Lemma matched_ids_bound result entity_dict k t :
  In (k, t) (matched_ids result entity_dict) ->
  exists e, In (k, e) entity_dict /\ first_id_named result (name_of e) = Some t.
Proof.
  unfold matched_ids. rewrite in_flat_map. intros ([k0 e] & Hin & Hkt).
  cbn [fst snd] in Hkt.
  destruct (first_id_named result (name_of e)) as [t0|] eqn:Hfirst; [|destruct Hkt].
  destruct Hkt as [[= -> ->]|[]]. eauto.
Qed.

(** X8: reconciliation splits the candidates in two: every candidate
    key is either left in the create set or bound in the id map, never
    both; nothing is added; the entities left to create are the
    candidates' own, unchanged; and a key is bound only to the id of a
    record of the store. *)
Theorem check_entity_in_odoo_partition :
  forall (result : list odoo_record) (entity_dict remaining : entities)
         (ids_entity_dict : list (Z * Z)),
    NoDup (map id result) ->
    Dict.wf entity_dict ->
    Odoo.check_entity_in_odoo (Reply result) entity_dict
    = Ok (remaining, ids_entity_dict) ->
    (forall k, In k (Dict.keys entity_dict)
               <-> In k (Dict.keys remaining) \/ In k (Dict.keys ids_entity_dict))
    /\ (forall k, In k (Dict.keys remaining) -> ~ In k (Dict.keys ids_entity_dict))
    /\ (List.length remaining + List.length ids_entity_dict
        = List.length entity_dict)%nat
    /\ (forall k e, In (k, e) remaining -> In (k, e) entity_dict)
    /\ (forall k t, In (k, t) ids_entity_dict -> In t (map id result)).
Proof.
  intros result entity_dict remaining ids Hids Hwf Hrun.
  rewrite check_entity_in_odoo_closed_form in Hrun by assumption.
  injection Hrun as <- <-.
  set (f := fun kv : Z * entity => name_exists result (name_of (snd kv))).
  assert (Hkeys : forall k, In k (Dict.keys (matched_ids result entity_dict))
                            <-> exists e, In (k, e) entity_dict /\ f (k, e) = true).
  { intros k. rewrite matched_ids_keys. unfold Dict.keys. rewrite in_map_iff. split.
    - intros ([k0 e] & <- & Hin). apply filter_In in Hin. cbn [fst]. eauto.
    - intros (e & Hin & Hf). exists (k, e). split; [reflexivity|].
      apply filter_In. now split. }
  assert (Hrem : forall k, In k (Dict.keys (unmatched result entity_dict))
                           <-> exists e, In (k, e) entity_dict /\ f (k, e) = false).
  { intros k. unfold unmatched, Dict.keys. rewrite in_map_iff. split.
    - intros ([k0 e] & <- & Hin). apply filter_In in Hin. destruct Hin as [Hin Hneg].
      apply negb_true_iff in Hneg. cbn [fst]. eauto.
    - intros (e & Hin & Hf). exists (k, e). split; [reflexivity|].
      apply filter_In. split; [assumption|]. apply negb_true_iff. exact Hf. }
  split; [|split; [|split; [|split]]].
  - intros k. rewrite Hkeys, Hrem. unfold Dict.keys. rewrite in_map_iff. split.
    + intros ([k0 e] & <- & Hin). cbn [fst].
      destruct (f (k0, e)) eqn:Hf; [right|left]; eauto.
    + intros [(e & Hin & _)|(e & Hin & _)]; exists (k, e); now split.
  - intros k Hk Hk'. apply Hrem in Hk. apply Hkeys in Hk'.
    destruct Hk as (e & Hin & Hf), Hk' as (e' & Hin' & Hf').
    assert (e = e').
    { pose proof (@in_get_some _ _ _ _ _ _ Hwf Hin) as H1.
      pose proof (@in_get_some _ _ _ _ _ _ Hwf Hin') as H2. congruence. }
    subst e'. congruence.
  - rewrite <- (filter_length f entity_dict), Nat.add_comm. f_equal.
    transitivity (List.length (Dict.keys (matched_ids result entity_dict))).
    + unfold Dict.keys. now rewrite length_map.
    + rewrite matched_ids_keys. unfold Dict.keys. now rewrite length_map.
  - intros k e Hin. unfold unmatched in Hin. now apply filter_In in Hin.
  - intros k t Hin. destruct (matched_ids_bound _ _ _ _ Hin) as (e & _ & Hfirst).
    destruct (@first_id_named_split _ _ _ Hfirst) as (pre & r & post & -> & _ & _ & ->).
    rewrite map_app. apply in_or_app. right. now left.
Qed.

Lemma check_entity_in_odoo_partition_witness :
  (List.length [(2, [("name", PStr "Han Solo")])]
   + List.length [(1, 7); (5, 9)]
   = List.length [(1, [("name", PStr "Luke Skywalker")]);
                  (2, [("name", PStr "Han Solo")]);
                  (5, [("name", PStr "Leia Organa")])])%nat.
Proof.
  refine (proj1 (proj2 (proj2
            (@check_entity_in_odoo_partition
               [{| id := 7; name := "Luke Skywalker" |};
                {| id := 9; name := "Leia Organa" |}]
               [(1, [("name", PStr "Luke Skywalker")]);
                (2, [("name", PStr "Han Solo")]);
                (5, [("name", PStr "Leia Organa")])]
               [(2, [("name", PStr "Han Solo")])]
               [(1, 7); (5, 9)] _ _ eq_refl)))).
  - repeat constructor; simpl; intuition discriminate.
  - repeat constructor; simpl; intuition discriminate.
Defined.

(** X9: the two extremes of reconciliation.  When every candidate's name
    is borne by some record of the store (a second run over an unchanged
    source), nothing is left to create and every candidate is bound;
    when none is (in particular against an empty store), the candidates
    come back untouched and the id map is empty. *)
Theorem check_entity_in_odoo_extremes :
  forall (result : list odoo_record) (entity_dict : entities),
    NoDup (map id result) ->
    Dict.wf entity_dict ->
    ((forall k e, In (k, e) entity_dict ->
                  exists r, In r result /\ name_of e = PStr (name r)) ->
     exists ids_entity_dict,
       Odoo.check_entity_in_odoo (Reply result) entity_dict = Ok ([], ids_entity_dict)
       /\ Dict.keys ids_entity_dict = Dict.keys entity_dict)
    /\ ((forall k e r, In (k, e) entity_dict -> In r result ->
                       name_of e <> PStr (name r)) ->
        Odoo.check_entity_in_odoo (Reply result) entity_dict = Ok (entity_dict, [])).
Proof.
  intros result entity_dict Hids Hwf.
  rewrite check_entity_in_odoo_closed_form by assumption. split.
  - intros Hall.
    assert (Hf : forall kv, In kv entity_dict ->
                            name_exists result (name_of (snd kv)) = true).
    { intros [k e] Hin. cbn [snd]. destruct (Hall k e Hin) as (r & Hr & Hname).
      unfold name_exists. apply existsb_exists. exists r. split; [exact Hr|].
      now apply py_eq_str_true. }
    exists (matched_ids result entity_dict). split.
    + f_equal. f_equal. unfold unmatched.
      clear Hwf Hall. induction entity_dict as [|kv rest IH]; [reflexivity|].
      cbn [filter]. rewrite (Hf kv) by now left. cbn [negb].
      apply IH. intros kv' Hin. apply Hf. now right.
    + rewrite matched_ids_keys. f_equal.
      clear Hwf Hall. induction entity_dict as [|kv rest IH]; [reflexivity|].
      cbn [filter]. rewrite (Hf kv) by now left. f_equal.
      apply IH. intros kv' Hin. apply Hf. now right.
  - intros Hnone.
    assert (Hf : forall kv, In kv entity_dict ->
                            name_exists result (name_of (snd kv)) = false).
    { intros [k e] Hin. cbn [snd]. apply name_exists_false.
      intros r Hr. now apply (Hnone k e r). }
    f_equal. f_equal.
    + unfold unmatched. clear Hwf Hnone.
      induction entity_dict as [|kv rest IH]; [reflexivity|].
      cbn [filter]. rewrite (Hf kv) by now left. cbn [negb]. f_equal.
      apply IH. intros kv' Hin. apply Hf. now right.
    + unfold matched_ids. clear Hwf Hnone.
      induction entity_dict as [|[k e] rest IH]; [reflexivity|].
      cbn [flat_map fst snd].
      pose proof (first_id_named_exists result (name_of e)) as Hex.
      destruct (first_id_named result (name_of e)).
      * pose proof (Hf (k, e) (or_introl eq_refl)) as Hk. cbn [snd] in Hk.
        rewrite (proj1 Hex) in Hk by discriminate. discriminate.
      * cbn [app]. apply IH. intros kv' Hin. apply Hf. now right.
Qed.

Lemma check_entity_in_odoo_extremes_witness :
  Odoo.check_entity_in_odoo (Reply [])
    [(1, [("name", PStr "Luke Skywalker")]); (2, [("name", PStr "Han Solo")])]
  = Ok ([(1, [("name", PStr "Luke Skywalker")]); (2, [("name", PStr "Han Solo")])], []).
Proof.
  apply (@check_entity_in_odoo_extremes []
           [(1, [("name", PStr "Luke Skywalker")]); (2, [("name", PStr "Han Solo")])]).
  - constructor.
  - repeat constructor; simpl; intuition discriminate.
  - intros k e r _ [].
Defined.

(** ** The upload against replies of the wrong length *)

Lemma nth_error_beyond_firstn {A : Type} (l : list A) (n i : nat) (x : A) :
  NoDup l -> nth_error l i = Some x -> (n <= i)%nat -> ~ In x (firstn n l).
Proof.
  intros Hnd Hnth Hle Hin.
  apply In_nth_error in Hin. destruct Hin as [j Hj].
  rewrite nth_error_firstn in Hj.
  destruct (Nat.ltb_spec j n); [|discriminate].
  rewrite NoDup_nth_error in Hnd.
  assert (j = i); [|lia].
  apply Hnd; [|congruence].
  apply nth_error_Some. congruence.
Qed.

Lemma keys_combine_short {K V : Type} (ks : list K) (vs : list V) :
  Dict.keys (combine ks vs) = firstn (List.length vs) ks.
Proof.
  revert vs. induction ks as [|k r IH]; intros [|v vs]; simpl; try reflexivity.
  f_equal. apply IH.
Qed.

(** The logging loop stops with [KeyError] at the first record without
    an id. *)
Lemma log_loop_short type (ids : list (Z * Z)) (l : entities) (ts : list Z) log :
  (List.length ts < List.length l)%nat ->
  (forall k e, In (k, e) l -> Dict.get e "name" <> None) ->
  (forall k e t, In (k, e, t) (combine l ts) -> Dict.get ids k = Some t) ->
  (forall i k e, nth_error l i = Some (k, e) -> (List.length ts <= i)%nat ->
                 Dict.get ids k = None) ->
  for_each (Odoo.log_step type ids) l log = Raise KeyError.
Proof.
  revert ts log. induction l as [|[k e] r IH]; intros ts log Hlen Hnames Hbound Hfree.
  - simpl in Hlen. lia.
  - cbn [for_each Odoo.log_step].
    destruct (Dict.get e "name") as [n|] eqn:Hn;
      [|exfalso; apply (Hnames k e); [now left|exact Hn]].
    destruct ts as [|t ts].
    + rewrite (Hfree 0%nat k e eq_refl) by (simpl; lia). reflexivity.
    + rewrite (Hbound k e t) by now left. cbn [bind].
      apply IH with (ts := ts).
      * simpl in Hlen. lia.
      * intros k' e' Hin. apply (Hnames k' e'). now right.
      * intros k' e' t' Hin. apply (Hbound k' e' t'). now right.
      * intros i k' e' Hnth Hle. apply (Hfree (S i) k' e'); [exact Hnth|simpl; lia].
Qed.

(** X10: when the store answers the create call with fewer ids than
    records were submitted, [upload_entity_info_into_oddo] raises
    [KeyError] (from the log line of the first record left without an
    id) and returns no id map, although the records that did get an id
    have been created. *)
Theorem upload_entity_info_into_oddo_short_reply :
  forall (create : list entity -> rpc_reply (list Z))
         (entity_dict : entities) (ids_entity_dict : list (Z * Z))
         (type : string) (entity_odoo_id : list Z),
    Dict.wf entity_dict ->
    create (Dict.values entity_dict) = Reply entity_odoo_id ->
    (List.length entity_odoo_id < List.length entity_dict)%nat ->
    (forall k e, In (k, e) entity_dict -> Dict.get e "name" <> None) ->
    (forall k, In k (Dict.keys entity_dict) -> Dict.get ids_entity_dict k = None) ->
    Odoo.upload_entity_info_into_oddo create entity_dict ids_entity_dict type
    = Raise KeyError.
Proof.
  intros create entity_dict ids type odoo Hwf Hcreate Hlen Hnames Hdisj.
  unfold Odoo.upload_entity_info_into_oddo. rewrite Hcreate.
  assert (Hkeys : Dict.keys (combine (Dict.keys entity_dict) odoo)
                  = firstn (List.length odoo) (Dict.keys entity_dict))
    by apply keys_combine_short.
  assert (Hnew : Dict.wf (combine (Dict.keys entity_dict) odoo)).
  { unfold Dict.wf. rewrite Hkeys.
    pose proof Hwf as Hsplit. unfold Dict.wf in Hsplit.
    rewrite <- (firstn_skipn (List.length odoo) (Dict.keys entity_dict)) in Hsplit.
    now apply NoDup_app_remove_r in Hsplit. }
  rewrite (rebuild_wf Hnew).
  rewrite (@log_loop_short type _ entity_dict odoo []); [reflexivity|exact Hlen|exact Hnames| |].
  - intros k e t Hin. rewrite get_update by assumption.
    pose proof (@in_combine_keys _ _ _ _ _ Hin) as Hin'.
    now rewrite (@in_get_some _ _ _ _ _ _ Hnew Hin').
  - intros i k e Hnth Hle. rewrite get_update by assumption.
    assert (Hk : nth_error (Dict.keys entity_dict) i = Some k).
    { unfold Dict.keys. now rewrite nth_error_map, Hnth. }
    assert (Hout : ~ In k (Dict.keys (combine (Dict.keys entity_dict) odoo))).
    { rewrite Hkeys.
      exact (@nth_error_beyond_firstn _ _ (List.length odoo) _ _ Hwf Hk Hle). }
    rewrite (proj2 (get_none_notin _ k) Hout).
    apply Hdisj. eapply nth_error_In. exact Hk.
Qed.

Lemma upload_entity_info_into_oddo_short_reply_witness :
  Odoo.upload_entity_info_into_oddo (fun _ => Reply [100])
    [(2, [("name", PStr "Han Solo")]); (4, [("name", PStr "Yoda")])]
    [(1, 7)] "character"
  = Raise KeyError.
Proof.
  apply (@upload_entity_info_into_oddo_short_reply (fun _ => Reply [100])
           [(2, [("name", PStr "Han Solo")]); (4, [("name", PStr "Yoda")])]
           [(1, 7)] "character" [100]).
  - repeat constructor; simpl; intuition discriminate.
  - reflexivity.
  - simpl. lia.
  - intros k e [[= <- <-]|[[= <- <-]|[]]]; discriminate.
  - intros k [<-|[<-|[]]]; reflexivity.
Defined.

(** X11: ids returned beyond the number of submitted records are
    ignored: the outcome is the one obtained from the reply cut to that
    number. *)
Theorem upload_entity_info_into_oddo_surplus_ids :
  forall (create : list entity -> rpc_reply (list Z))
         (entity_dict : entities) (ids_entity_dict : list (Z * Z))
         (type : string) (entity_odoo_id : list Z),
    create (Dict.values entity_dict) = Reply entity_odoo_id ->
    Odoo.upload_entity_info_into_oddo create entity_dict ids_entity_dict type
    = Odoo.upload_entity_info_into_oddo
        (fun _ => Reply (firstn (List.length entity_dict) entity_odoo_id))
        entity_dict ids_entity_dict type.
Proof.
  intros create entity_dict ids type odoo Hcreate.
  unfold Odoo.upload_entity_info_into_oddo. rewrite Hcreate.
  assert (Hl : List.length (Dict.keys entity_dict) = List.length entity_dict)
    by (unfold Dict.keys; apply length_map).
  rewrite (combine_firstn_l (Dict.keys entity_dict) odoo), Hl. reflexivity.
Qed.

Lemma upload_entity_info_into_oddo_surplus_ids_witness :
  Odoo.upload_entity_info_into_oddo (fun _ => Reply [100; 101; 102])
    [(2, [("name", PStr "Han Solo")])] [(1, 7)] "character"
  = Ok ([(1, 7); (2, 100)], [Created "character" (PStr "Han Solo") 100 2]).
Proof.
  rewrite (@upload_entity_info_into_oddo_surplus_ids (fun _ => Reply [100; 101; 102])
             [(2, [("name", PStr "Han Solo")])] [(1, 7)] "character" [100; 101; 102]
             eq_refl).
  reflexivity.
Defined.

(** ** The photographs, from the URLs to the entities *)

Lemma generate_photo_urls_nth (base_url : string) (len : Z) (i : nat) :
  (i < Z.to_nat len)%nat ->
  nth_error (Generator.generate_photo_urls base_url len) i
  = Some (base_url ++ py_str_int (Z.of_nat i + 1) ++ ".jpg")%string.
Proof.
  intros Hi. unfold Generator.generate_photo_urls.
  rewrite nth_error_map, py_range_nth by lia.
  cbn [option_map]. now rewrite (Z.add_comm 1).
Qed.

Lemma generate_photo_urls_length (base_url : string) (len : Z) :
  List.length (Generator.generate_photo_urls base_url len) = Z.to_nat len.
Proof.
  unfold Generator.generate_photo_urls. rewrite length_map, py_range_length.
  f_equal. lia.
Qed.

Lemma b64encode_eqb_empty (data : list byte) :
  String.eqb (b64encode data) "" = match data with [] => true | _ :: _ => false end.
Proof. destruct data as [|a [|b [|c r]]]; reflexivity. Qed.

(** X12: the photograph step of the script.  It never raises and keeps
    the characters' keys.  A character whose source id [k] lies between
    1 and the number of characters plus one is matched with the payload
    fetched from [image_url + str(k) + ".jpg"]: it gains [image_1920],
    the base64 text of the payload, when the payload decodes as an image
    and is not empty, and is left as it is otherwise.  A character whose
    id lies outside that range, for which no photograph was requested,
    gains [image_1920 = None]. *)
Theorem attach_photos_by_id :
  forall (Image_open : list byte -> outcome unit) (fetch_photo : string -> list byte)
         (image_url : string) (characters_dict : entities),
    Dict.wf characters_dict ->
    exists (changed : entities) (log : list log_record),
      Main.attach_photos Image_open fetch_photo image_url characters_dict
      = Ok (changed, log)
      /\ Dict.keys changed = Dict.keys characters_dict
      /\ forall k e,
           In (k, e) characters_dict ->
           Dict.get changed k
           = Some (if (1 <=? k) && (k <=? Z.of_nat (List.length characters_dict) + 1)
                   then
                     let payload := fetch_photo (image_url ++ py_str_int k ++ ".jpg")%string in
                     if opens Image_open payload
                     then match payload with
                          | [] => e
                          | _ :: _ => Dict.set e "image_1920" (PStr (b64encode payload))
                          end
                     else e
                   else Dict.set e "image_1920" PNone).
Proof.
  intros Image_open fetch_photo image_url characters_dict Hwf.
  unfold Main.attach_photos. rewrite upgrade_photo_closed_form. cbn [bind].
  set (n := Z.of_nat (List.length characters_dict) + 1).
  set (urls := Generator.generate_photo_urls image_url n).
  set (image_dict := photo_entries Image_open (map fetch_photo urls) 0).
  do 2 eexists. split; [reflexivity|].
  rewrite (upgrage_characters_photo_map image_dict Hwf).
  split; [apply (keys_map_snd (attach_image image_dict))|].
  intros k e Hin.
  rewrite (get_map_snd (attach_image image_dict)), (@in_get_some _ _ _ _ _ _ Hwf Hin).
  cbn [option_map]. f_equal. unfold attach_image, Characters.image_of.
  assert (Hlen : List.length (map fetch_photo urls) = Z.to_nat n).
  { rewrite length_map. apply generate_photo_urls_length. }
  destruct (Z.leb_spec 1 k) as [H1|H1]; cbn [andb].
  - destruct (Z.leb_spec k n) as [H2|H2].
    + assert (Hnth : nth_error (map fetch_photo urls) (Z.to_nat (k - 1))
                     = Some (fetch_photo (image_url ++ py_str_int k ++ ".jpg")%string)).
      { rewrite nth_error_map. unfold urls.
        rewrite generate_photo_urls_nth by lia. cbn [option_map].
        now replace (Z.of_nat (Z.to_nat (k - 1)) + 1) with k by lia. }
      pose proof (photo_entries_get Image_open _ 0 _ Hnth) as Hget.
      replace (0 + Z.of_nat (Z.to_nat (k - 1)) + 1) with k in Hget by lia.
      fold image_dict in Hget. rewrite Hget. cbv zeta.
      destruct (opens Image_open _); [|reflexivity].
      cbn [py_eq_str]. rewrite b64encode_eqb_empty.
      destruct (fetch_photo _); reflexivity.
    + assert (Hout : Dict.get image_dict k = None).
      { apply get_none_notin. unfold image_dict. rewrite photo_entries_keys, Hlen.
        unfold py_range. rewrite in_map_iff. intros (a & Ha & Hseq).
        apply in_seq in Hseq. lia. }
      rewrite Hout. reflexivity.
  - assert (Hout : Dict.get image_dict k = None).
    { apply get_none_notin. unfold image_dict. rewrite photo_entries_keys.
      unfold py_range. rewrite in_map_iff. intros (a & Ha & Hseq). lia. }
    rewrite Hout. reflexivity.
Qed.

Lemma attach_photos_by_id_witness :
  exists (changed : entities) (log : list log_record),
    Main.attach_photos
      (fun payload => match payload with x89 :: _ => Ok tt | _ => Raise ValueError end)
      (fun url => if String.eqb url "img/1.jpg" then [x89; x50] else [x3c])
      "img/"
      [(1, [("name", PStr "Luke Skywalker")]); (5, [("name", PStr "Leia Organa")])]
    = Ok (changed, log)
    /\ Dict.keys changed = [1; 5].
Proof.
  destruct (@attach_photos_by_id
              (fun payload => match payload with x89 :: _ => Ok tt | _ => Raise ValueError end)
              (fun url => if String.eqb url "img/1.jpg" then [x89; x50] else [x3c])
              "img/"
              [(1, [("name", PStr "Luke Skywalker")]); (5, [("name", PStr "Leia Organa")])])
    as (changed & log & Hrun & Hkeys & _).
  - repeat constructor; simpl; intuition discriminate.
  - exists changed, log. split; [exact Hrun|exact Hkeys].
Defined.

(** ** The script: reconcile, then upload *)

Lemma wf_filter {K V : Type} (f : K * V -> bool) (d : list (K * V)) :
  Dict.wf d -> Dict.wf (filter f d).
Proof.
  unfold Dict.wf, Dict.keys. induction d as [|kv r IH]; intros Hnd; [constructor|].
  inversion Hnd as [|? ? Hnotin Hrest]; subst. cbn [filter].
  destruct (f kv); [|auto].
  cbn [map]. constructor; [|auto].
  intros Hin. apply Hnotin. apply in_map_iff in Hin.
  destruct Hin as (kv' & Heq & Hin). apply filter_In in Hin.
  rewrite <- Heq. apply in_map. tauto.
Qed.

(** The upload when the store returns one id per record. *)
Lemma upload_closed_form (create : list entity -> rpc_reply (list Z))
    (entity_dict : entities) (ids : list (Z * Z)) (type : string) (odoo : list Z) :
  Dict.wf entity_dict ->
  create (Dict.values entity_dict) = Reply odoo ->
  List.length odoo = List.length entity_dict ->
  (forall k e, In (k, e) entity_dict -> Dict.get e "name" <> None) ->
  Odoo.upload_entity_info_into_oddo create entity_dict ids type
  = Ok (Dict.update ids (combine (Dict.keys entity_dict) odoo),
        map (fun x => Created type (name_of (snd (fst x))) (snd x) (fst (fst x)))
            (combine entity_dict odoo))
  /\ Dict.wf (combine (Dict.keys entity_dict) odoo)
  /\ Dict.keys (combine (Dict.keys entity_dict) odoo) = Dict.keys entity_dict.
Proof.
  intros Hwf Hcreate Hlen Hnames.
  unfold Odoo.upload_entity_info_into_oddo. rewrite Hcreate.
  assert (Hkeys : Dict.keys (combine (Dict.keys entity_dict) odoo) = Dict.keys entity_dict).
  { apply keys_combine. unfold Dict.keys. rewrite length_map. lia. }
  assert (Hnew : Dict.wf (combine (Dict.keys entity_dict) odoo)).
  { unfold Dict.wf. now rewrite Hkeys. }
  rewrite (rebuild_wf Hnew).
  rewrite (@log_loop type _ entity_dict odoo []).
  - cbn [bind app]. now repeat split.
  - lia.
  - intros k e t Hin. split.
    + apply (Hnames k). eapply in_combine_l. exact Hin.
    + rewrite get_update by assumption.
      pose proof (@in_combine_keys _ _ _ _ _ Hin) as Hin'.
      now rewrite (@in_get_some _ _ _ _ _ _ Hnew Hin').
Qed.

(** Reconciling and then uploading binds every candidate. *)
Lemma reconcile_upload_binds (result : list odoo_record) (entity_dict : entities)
    (odoo : list Z) (k : Z) :
  Dict.wf entity_dict ->
  List.length odoo = List.length (unmatched result entity_dict) ->
  (In k (Dict.keys entity_dict)
   <-> Dict.get (Dict.update (matched_ids result entity_dict)
                   (combine (Dict.keys (unmatched result entity_dict)) odoo)) k
       <> None).
Proof.
  intros Hwf Hlen.
  assert (Hkeys : Dict.keys (combine (Dict.keys (unmatched result entity_dict)) odoo)
                  = Dict.keys (unmatched result entity_dict)).
  { apply keys_combine. unfold Dict.keys. rewrite length_map. lia. }
  assert (Hnew : Dict.wf (combine (Dict.keys (unmatched result entity_dict)) odoo)).
  { unfold Dict.wf. rewrite Hkeys. apply (wf_filter _ Hwf). }
  rewrite get_update by assumption. split.
  - intros Hk. unfold Dict.keys in Hk. apply in_map_iff in Hk.
    destruct Hk as ([k0 e] & Heq & Hin). cbn [fst] in Heq. subst k0.
    destruct (name_exists result (name_of e)) eqn:Hex.
    + destruct (Dict.get (combine _ odoo) k); [discriminate|].
      rewrite (@matched_ids_get result _ _ _ Hwf Hin).
      now apply first_id_named_exists.
    + assert (Hin' : In k (Dict.keys (combine (Dict.keys (unmatched result entity_dict)) odoo))).
      { rewrite Hkeys. unfold Dict.keys, unmatched. apply in_map_iff.
        exists (k, e). split; [reflexivity|]. apply filter_In. split; [exact Hin|].
        cbn [snd]. now rewrite Hex. }
      destruct (Dict.get (combine _ odoo) k) eqn:Hget; [discriminate|].
      apply get_none_notin in Hget. contradiction.
  - destruct (Dict.get (combine _ odoo) k) eqn:Hget.
    + intros _. assert (Hk : In k (Dict.keys (unmatched result entity_dict))).
      { rewrite <- Hkeys. apply get_none_notin_inv. congruence. }
      unfold Dict.keys, unmatched in Hk. apply in_map_iff in Hk.
      destruct Hk as (kv & <- & Hin). apply filter_In in Hin.
      unfold Dict.keys. apply in_map. tauto.
    + intros Hm. apply get_none_notin_inv in Hm.
      now apply (matched_ids_keys_in result).
Qed.

Lemma planets_wf (records : list pyval) (planet_dict : entities) :
  for_each Planets.planet_step records [] = Ok planet_dict -> Dict.wf planet_dict.
Proof.
  apply (@for_each_invariant _ _ (fun acc : entities => Dict.wf acc)).
  - constructor.
  - intros acc planet acc' Hacc _ Hstep.
    destruct (planet_step_cases _ _ Hstep) as [[_ ->]|(_ & pid & _ & ->)];
      [exact Hacc|now apply wf_set].
Qed.



Lemma unmatched_nil (result : list odoo_record) (entity_dict : entities) :
  (forall k e, In (k, e) entity_dict ->
               exists r, In r result /\ name_of e = PStr (name r)) ->
  unmatched result entity_dict = []
  /\ Dict.keys (matched_ids result entity_dict) = Dict.keys entity_dict.
Proof.
  intros Hall.
  assert (Hf : forall kv, In kv entity_dict ->
                          name_exists result (name_of (snd kv)) = true).
  { intros [k e] Hin. cbn [snd]. destruct (Hall k e Hin) as (r & Hr & Hname).
    unfold name_exists. apply existsb_exists. exists r. split; [exact Hr|].
    now apply py_eq_str_true. }
  clear Hall. rewrite matched_ids_keys. unfold unmatched.
  induction entity_dict as [|kv rest IH]; [now split|].
  cbn [filter]. rewrite (Hf kv) by now left. cbn [negb].
  destruct IH as [IH1 IH2]; [intros kv' Hin; apply Hf; now right|].
  split; [exact IH1|]. unfold Dict.keys in *. cbn [map]. now rewrite IH2.
Qed.

(** X14: a second run of the planets part.  If the store already holds
    a record for the name of every normalised planet, the create call is
    still made, with an empty batch; whatever ids it answers, nothing is
    logged as created and the id map binds exactly the normalised planet
    ids. *)
Theorem upload_planets_second_run :
  forall (result : list odoo_record) (create : list entity -> rpc_reply (list Z))
         (json_planets : list pyval) (planet_dict : entities) (odoo : list Z),
    Planets.generate_planet_info json_planets = Ok planet_dict ->
    NoDup (map id result) ->
    (forall k e, In (k, e) planet_dict ->
                 exists r, In r result /\ name_of e = PStr (name r)) ->
    create [] = Reply odoo ->
    exists ids_planets_dict : list (Z * Z),
      Main.upload_planets (Reply result) create json_planets
      = Ok (ids_planets_dict, [])
      /\ Dict.keys ids_planets_dict = Dict.keys planet_dict.
Proof.
  intros result create json_planets planet_dict odoo Hrun Hids Hall Hcreate.
  assert (Hwf : Dict.wf planet_dict).
  { rewrite generate_planet_info_loop in Hrun.
    destruct (@pages_loop_items _ _ _ _ _ Hrun) as [records Hrecords].
    rewrite (@pages_loop_flatten _ Planets.planet_step _ _ [] Hrecords) in Hrun.
    exact (planets_wf _ Hrun). }
  unfold Main.upload_planets. rewrite Hrun. cbn [bind].
  rewrite check_entity_in_odoo_closed_form by assumption. cbn [bind].
  destruct (unmatched_nil result planet_dict Hall) as [-> Hkeys].
  unfold Odoo.upload_entity_info_into_oddo. cbn [Dict.values map]. rewrite Hcreate.
  cbn. eexists. split; [reflexivity|exact Hkeys].
Qed.

Lemma upload_planets_second_run_witness :
  exists ids_planets_dict : list (Z * Z),
    Main.upload_planets
      (Reply [{| id := 40; name := "Tatooine" |}; {| id := 41; name := "Alderaan" |}])
      (fun _ => Reply [])
      [PDict [("results",
               PList [PDict [("name", PStr "Tatooine");
                             ("url", PStr "https://swapi.dev/api/planets/1/")];
                      PDict [("name", PStr "Alderaan");
                             ("url", PStr "https://swapi.dev/api/planets/2/")]])]]
    = Ok (ids_planets_dict, [])
    /\ Dict.keys ids_planets_dict = [1; 2].
Proof.
  apply (@upload_planets_second_run
           [{| id := 40; name := "Tatooine" |}; {| id := 41; name := "Alderaan" |}]
           (fun _ => Reply [])
           [PDict [("results",
                    PList [PDict [("name", PStr "Tatooine");
                                  ("url", PStr "https://swapi.dev/api/planets/1/")];
                           PDict [("name", PStr "Alderaan");
                                  ("url", PStr "https://swapi.dev/api/planets/2/")]])]]
           _ [] eq_refl).
  - repeat constructor; simpl; intuition discriminate.
  - intros k e [[= <- <-]|[[= <- <-]|[]]].
    + exists {| id := 40; name := "Tatooine" |}. split; [now left|reflexivity].
    + exists {| id := 41; name := "Alderaan" |}. split; [right; now left|reflexivity].
  - reflexivity.
Defined.

(** X15: the characters part of the script after the photographs.  The
    characters whose name the store holds are neither remapped nor sent;
    the batch handed to the create call is made of the other characters,
    in order, each with its planet replaced by
    [ids_planets_dict.get(planet, "")]: the outcome depends on the store
    only through its answer to that batch.  When that answer has one id
    per record, the returned id map binds exactly the characters' source
    ids and one "created" line is logged per record of the batch. *)
Theorem upload_characters_remaps_then_uploads :
  forall (result : list odoo_record) (create : list entity -> rpc_reply (list Z))
         (changed_characters_dict : entities) (ids_planets_dict : list (Z * Z))
         (odoo : list Z),
    Dict.wf changed_characters_dict ->
    (forall k e, In (k, e) changed_characters_dict ->
                 Dict.get e "name" <> None /\ hashable (planet_of e) = true) ->
    NoDup (map id result) ->
    create (map (fun e => Dict.set e "planet" (resolve ids_planets_dict (planet_of e)))
                (Dict.values
                   (filter (fun kv => negb (name_exists result (name_of (snd kv))))
                           changed_characters_dict)))
    = Reply odoo ->
    List.length odoo
    = List.length (filter (fun kv => negb (name_exists result (name_of (snd kv))))
                          changed_characters_dict) ->
    exists (ids_character_dict : list (Z * Z)) (log : list log_record),
      Main.upload_characters (Reply result) create changed_characters_dict
        ids_planets_dict
      = Ok (ids_character_dict, log)
      /\ (forall k, In k (Dict.keys changed_characters_dict)
                    <-> Dict.get ids_character_dict k <> None)
      /\ List.length log = List.length odoo.
Proof.
  intros result create changed ids_planets odoo Hwf Hshape Hids Hcreate Hlen.
  fold (unmatched result changed) in Hcreate, Hlen.
  set (g := fun kv : Z * entity =>
              (fst kv, Dict.set (snd kv) "planet"
                         (resolve ids_planets (planet_of (snd kv))))).
  assert (Hrem : forall k e, In (k, e) (unmatched result changed) -> In (k, e) changed).
  { intros k e Hin. unfold unmatched in Hin. now apply filter_In in Hin. }
  unfold Main.upload_characters.
  rewrite check_entity_in_odoo_closed_form by assumption. cbn [bind].
  rewrite (@upgrade_characters_info_map (unmatched result changed) ids_planets
             (wf_filter _ Hwf)
             (fun k e Hin => proj2 (Hshape k e (Hrem k e Hin)))).
  cbn [bind]. fold g.
  assert (Hkeys : @Dict.keys Z entity (map g (unmatched result changed))
                  = Dict.keys (unmatched result changed)).
  { unfold Dict.keys. rewrite map_map. now apply map_ext. }
  assert (Hvalues : @Dict.values Z entity (map g (unmatched result changed))
                    = map (fun e => Dict.set e "planet" (resolve ids_planets (planet_of e)))
                          (Dict.values (unmatched result changed))).
  { unfold Dict.values. rewrite !map_map. now apply map_ext. }
  destruct (@upload_closed_form create (map g (unmatched result changed))
              (matched_ids result changed) "character" odoo) as (Hup & _ & _).
  - unfold Dict.wf. rewrite Hkeys. apply (wf_filter _ Hwf).
  - rewrite Hvalues. exact Hcreate.
  - rewrite length_map. exact Hlen.
  - intros k e' Hin. apply in_map_iff in Hin. destruct Hin as ([k0 e] & Heq & Hin).
    unfold g in Heq. cbn [fst snd] in Heq. injection Heq as -> <-.
    rewrite get_set_neq by discriminate.
    exact (proj1 (Hshape k e (Hrem k e Hin))).
  - rewrite Hkeys in Hup.
    exists (Dict.update (matched_ids result changed)
              (combine (Dict.keys (unmatched result changed)) odoo)).
    exists (map (fun x => Created "character" (name_of (snd (fst x))) (snd x) (fst (fst x)))
                (combine (map g (unmatched result changed)) odoo)).
    split; [exact Hup|]. split.
    + intros k. now apply reconcile_upload_binds.
    + rewrite length_map, length_combine, length_map. lia.
Qed.

Lemma upload_characters_remaps_then_uploads_witness :
  exists (ids_character_dict : list (Z * Z)) (log : list log_record),
    Main.upload_characters
      (Reply [{| id := 7; name := "Luke Skywalker" |}])
      (fun batch =>
         match batch with
         | [[("name", PStr "Leia Organa"); ("planet", PInt 42)]] => Reply [8]
         | _ => RpcFault
         end)
      [(1, [("name", PStr "Luke Skywalker"); ("planet", PInt 1)]);
       (5, [("name", PStr "Leia Organa"); ("planet", PInt 2)])]
      [(1, 41); (2, 42)]
    = Ok (ids_character_dict, log)
    /\ List.length log = 1%nat.
Proof.
  destruct (@upload_characters_remaps_then_uploads
              [{| id := 7; name := "Luke Skywalker" |}]
              (fun batch =>
                 match batch with
                 | [[("name", PStr "Leia Organa"); ("planet", PInt 42)]] => Reply [8]
                 | _ => RpcFault
                 end)
              [(1, [("name", PStr "Luke Skywalker"); ("planet", PInt 1)]);
               (5, [("name", PStr "Leia Organa"); ("planet", PInt 2)])]
              [(1, 41); (2, 42)] [8])
    as (ids & log & Hrun & _ & Hlog).
  - repeat constructor; simpl; intuition discriminate.
  - intros k e [[= <- <-]|[[= <- <-]|[]]]; split; (discriminate || reflexivity).
  - repeat constructor; simpl; intuition discriminate.
  - reflexivity.
  - reflexivity.
  - exists ids, log. split; [exact Hrun|exact Hlog].
Defined.

(** ** The retry loops *)

Section RetryFacts.
Context {A : Type}.
Variable session : string -> nat -> attempt A.

Lemma retry_success (url : string) (a : A) (n fuel k0 : nat) :
  (forall j, (j < n)%nat -> session url (k0 + j) = Failed) ->
  session url (k0 + n) = Received a ->
  (n < fuel)%nat ->
  Asynchron.retry session fuel url k0
  = Some (a, repeat (Asynchron.retry_line url) n).
Proof.
  revert fuel k0. induction n as [|n IH]; intros fuel k0 Hfail Hok Hfuel.
  - destruct fuel as [|fuel]; [lia|]. cbn [Asynchron.retry].
    rewrite Nat.add_0_r in Hok. now rewrite Hok.
  - destruct fuel as [|fuel]; [lia|]. cbn [Asynchron.retry].
    pose proof (Hfail 0%nat ltac:(lia)) as H0. rewrite Nat.add_0_r in H0. rewrite H0.
    rewrite (IH fuel (S k0)).
    + reflexivity.
    + intros j Hj. replace (S k0 + j)%nat with (k0 + S j)%nat by lia. apply Hfail. lia.
    + replace (S k0 + n)%nat with (k0 + S n)%nat by lia. exact Hok.
    + lia.
Qed.

Lemma retry_exhausted (url : string) (fuel k0 : nat) :
  (forall j, (j < fuel)%nat -> session url (k0 + j) = Failed) ->
  Asynchron.retry session fuel url k0 = None.
Proof.
  revert k0. induction fuel as [|fuel IH]; intros k0 Hfail; [reflexivity|].
  cbn [Asynchron.retry].
  pose proof (Hfail 0%nat ltac:(lia)) as H0. rewrite Nat.add_0_r in H0. rewrite H0.
  rewrite IH; [reflexivity|].
  intros j Hj. replace (S k0 + j)%nat with (k0 + S j)%nat by lia. apply Hfail. lia.
Qed.

Lemma gather_success (first : string -> nat) (payload : string -> A)
    (fuel : nat) (urls : list string) :
  (forall url, In url urls ->
     (forall j, (j < first url)%nat -> session url j = Failed)
     /\ session url (first url) = Received (payload url)
     /\ (first url < fuel)%nat) ->
  Asynchron.gather session fuel urls
  = Some (map payload urls,
          map (fun url => repeat (Asynchron.retry_line url) (first url)) urls).
Proof.
  induction urls as [|url rest IH]; intros Hall; [reflexivity|].
  cbn [Asynchron.gather map].
  destruct (Hall url (or_introl eq_refl)) as (Hfail & Hok & Hfuel).
  rewrite (@retry_success url (payload url) (first url) fuel 0); try assumption.
  rewrite IH by (intros u Hu; apply Hall; now right). reflexivity.
Qed.

Lemma gather_blocked (fuel : nat) (urls : list string) (url : string) :
  In url urls ->
  (forall j, session url j = Failed) ->
  Asynchron.gather session fuel urls = None.
Proof.
  intros Hin Hfail. induction urls as [|u rest IH]; [destruct Hin|].
  cbn [Asynchron.gather]. destruct Hin as [->|Hin].
  - rewrite retry_exhausted by (intros; apply Hfail). reflexivity.
  - rewrite (IH Hin). destruct (Asynchron.retry session fuel u 0) as [[a log]|]; reflexivity.
Qed.
End RetryFacts.

(** X16: the retry loop of [get_entity] and [get_photo] returns the
    payload of the first request that succeeds, after logging one line
    naming the URL for each request that failed before it; with [k]
    failures first, it is still running after [k] iterations and has
    returned after [k + 1]. *)
Theorem retry_returns_first_success :
  forall (session_json : string -> nat -> attempt pyval)
         (session_bytes : string -> nat -> attempt (list byte))
         (url : string) (k fuel : nat),
    (forall (json : pyval),
        (forall j, (j < k)%nat -> session_json url j = Failed) ->
        session_json url k = Received json ->
        Asynchron.get_entity session_json fuel url
        = if (k <? fuel)%nat
          then Some (json, repeat (Asynchron.retry_line url) k)
          else None)
    /\ (forall (photo : list byte),
          (forall j, (j < k)%nat -> session_bytes url j = Failed) ->
          session_bytes url k = Received photo ->
          Asynchron.get_photo session_bytes fuel url
          = if (k <? fuel)%nat
            then Some (photo, repeat (Asynchron.retry_line url) k)
            else None).
Proof.
  intros session_json session_bytes url k fuel. split.
  - intros json Hfail Hok. unfold Asynchron.get_entity.
    destruct (Nat.ltb_spec k fuel).
    + now apply retry_success.
    + apply retry_exhausted. intros j Hj. apply Hfail. simpl. lia.
  - intros photo Hfail Hok. unfold Asynchron.get_photo.
    destruct (Nat.ltb_spec k fuel).
    + now apply retry_success.
    + apply retry_exhausted. intros j Hj. apply Hfail. simpl. lia.
Qed.

(** X17: there is no retry ceiling: when every request to one of the
    URLs fails, [request_all] never returns, however many iterations it
    is given, whatever the other URLs do. *)
Theorem request_all_blocked_by_one_url :
  forall (session_json : string -> nat -> attempt pyval)
         (session_bytes : string -> nat -> attempt (list byte))
         (urls : list string) (url : string) (photo : bool),
    In url urls ->
    (if photo
     then forall j, session_bytes url j = Failed
     else forall j, session_json url j = Failed) ->
    forall fuel : nat,
      Asynchron.request_all session_json session_bytes fuel urls photo = None.
Proof.
  intros session_json session_bytes urls url photo Hin Hfail fuel.
  unfold Asynchron.request_all. destruct photo.
  - now rewrite (gather_blocked session_bytes fuel urls url Hin Hfail).
  - now rewrite (gather_blocked session_json fuel urls url Hin Hfail).
Qed.

Lemma request_all_blocked_by_one_url_witness :
  Asynchron.request_all
    (fun url _ => if String.eqb url "p?page=2" then Failed else Received PNone)
    (fun _ _ => Failed) 1000 ["p?page=1"; "p?page=2"; "p?page=3"] false
  = None.
Proof.
  apply (@request_all_blocked_by_one_url
           (fun url _ => if String.eqb url "p?page=2" then Failed else Received PNone)
           (fun _ _ => Failed) ["p?page=1"; "p?page=2"; "p?page=3"] "p?page=2" false).
  - right. now left.
  - intros j. reflexivity.
Defined.

(** X18: when every URL eventually answers, [request_all] returns one
    payload per URL, in the order of the URLs, each being the first
    successful answer of its URL, and the lines logged for a URL are as
    many as its failed requests.  The URLs are distinct, as the
    generators produce them. *)
Theorem request_all_keeps_order :
  forall (session_json : string -> nat -> attempt pyval)
         (session_bytes : string -> nat -> attempt (list byte))
         (first : string -> nat) (json : string -> pyval)
         (photo : string -> list byte) (fuel : nat) (urls : list string),
    NoDup urls ->
    (forall url, In url urls -> (first url < fuel)%nat) ->
    ((forall url, In url urls ->
        (forall j, (j < first url)%nat -> session_json url j = Failed)
        /\ session_json url (first url) = Received (json url)) ->
     Asynchron.request_all session_json session_bytes fuel urls false
     = Some (inl (map json urls),
             map (fun url => repeat (Asynchron.retry_line url) (first url)) urls))
    /\ ((forall url, In url urls ->
           (forall j, (j < first url)%nat -> session_bytes url j = Failed)
           /\ session_bytes url (first url) = Received (photo url)) ->
        Asynchron.request_all session_json session_bytes fuel urls true
        = Some (inr (map photo urls),
                map (fun url => repeat (Asynchron.retry_line url) (first url)) urls)).
Proof.
  intros session_json session_bytes first json photo fuel urls _ Hfuel.
  unfold Asynchron.request_all. split; intros Hall.
  - rewrite (@gather_success _ session_json first json fuel urls); [reflexivity|].
    intros url Hin. destruct (Hall url Hin). auto.
  - rewrite (@gather_success _ session_bytes first photo fuel urls); [reflexivity|].
    intros url Hin. destruct (Hall url Hin). auto.
Qed.

Lemma request_all_keeps_order_witness :
  Asynchron.request_all
    (fun url k => if String.eqb url "p?page=2" && (k <? 2)%nat
                  then Failed else Received (PStr url))
    (fun _ _ => Failed) 3 ["p?page=1"; "p?page=2"; "p?page=3"] false
  = Some (inl [PStr "p?page=1"; PStr "p?page=2"; PStr "p?page=3"],
          [[]; [Asynchron.retry_line "p?page=2"; Asynchron.retry_line "p?page=2"]; []]).
Proof.
  refine (proj1 (@request_all_keeps_order
                   (fun url k => if String.eqb url "p?page=2" && (k <? 2)%nat
                                 then Failed else Received (PStr url))
                   (fun _ _ => Failed)
                   (fun url => if String.eqb url "p?page=2" then 2%nat else 0%nat)
                   PStr (fun _ => []) 3 ["p?page=1"; "p?page=2"; "p?page=3"] _ _) _).
  - repeat constructor; simpl; intuition discriminate.
  - intros url [<-|[<-|[<-|[]]]]; simpl; lia.
  - intros url [<-|[<-|[<-|[]]]]; (split; [|reflexivity]); intros j Hj; simpl in *;
      try lia.
    destruct j as [|[|j]]; [reflexivity|reflexivity|lia].
Defined.
